(** * SGP30 gas-sensor driver: a shallow embedding of [sgp30/sgp30.py]

    Python integers are unbounded, so every integer of the driver is a [Z]
    and the bit operations are the ones of [Z] ([Z.land], [Z.lxor],
    [Z.lor], [Z.shiftl]), which agree with Python's on every integer.
    A Python list of integers is a [list Z], indexed with [nth_error]; an
    index out of range raises [IndexError].  Instants and durations
    ([time()], [sleep]) are rationals counted in seconds. *)

From Stdlib Require Import ZArith QArith List String Ascii Bool Lia Lqa.
From Stdlib Require Import DecimalString.
Import ListNotations.

Local Open Scope Z_scope.

(** ** Exceptions and outcomes *)

Inductive exn : Type :=
| FileNotFoundError
| OSError
| IndexError
| SystemExit (code : Z).

Inductive outcome (A : Type) : Type :=
| Ok (a : A)
| Raise (e : exn).

Arguments Ok {A} a.
Arguments Raise {A} e.

Definition is_ok {A} (r : outcome A) : bool :=
  match r with Ok _ => true | Raise _ => false end.

(** Pure code that can raise: the error monad on [outcome]. *)
Module Exc.

Definition bind {A B} (m : outcome A) (k : A -> outcome B) : outcome B :=
  match m with
  | Ok a => k a
  | Raise e => Raise e
  end.

(** [data[i]] for a non-negative literal index. *)
Definition index (data : list Z) (i : nat) : outcome Z :=
  match nth_error data i with
  | Some d => Ok d
  | None => Raise IndexError
  end.

End Exc.

Declare Scope exc_scope.
Delimit Scope exc_scope with exc.
Notation "x <- m ;; k" := (Exc.bind m (fun x => k))
  (at level 61, m at next level, right associativity) : exc_scope.

(** ** Constants of the module *)

Definition I2C_ADDRESS : Z := 0x58.
Definition REG_BASE : Z := 0x00.
Definition CMD_HEAD : Z := 0x20.
Definition CMD_IAQ_INIT : Z := 0x03.
Definition CMD_MEASURE_IAQ : Z := 0x08.
Definition CMD_GET_IAQ_BASELINE : Z := 0x15.
Definition CMD_SET_IAQ_BASELINE : Z := 0x1E.
Definition CMD_SET_ABS_HUMI : Z := 0x61.
Definition CMD_GET_FEATURE_SET : Z := 0x2F.
Definition CMD_MEASURE_RAW : Z := 0x50.
Definition CMD_GET_TVOC_INCEPTIVE_BASELINE : Z := 0xB3.
Definition CMD_SET_TVOC_BASELINE : Z := 0x77.
Definition CMD_SOFT_RESET : Z := 0x06.
Definition CMD_GET_SERIAL_ID : list Z := [0x36; 0x82].
Definition T_IDLE : Q := 1 # 1000.
Definition SENSOR_MAKER : string := "Sensirion".

(** ** Checksum engine ([crc_calc], [crc_check]) *)

(** Body of the inner loop [for _ in range(8, 0, -1)]: the register is an
    unbounded integer, nothing is masked here. *)
Definition crc_bit (crc : Z) : Z :=
  if Z.land crc 0x80 =? 0
  then Z.shiftl crc 1
  else Z.lxor (Z.shiftl crc 1) 0x31.

(** Body of the outer loop for one index [i]: [crc ^= data[i]], then the
    eight rounds. *)
Definition crc_byte (data : list Z) (crc : Z) (i : nat) : outcome Z :=
  (d <- Exc.index data i ;;
   Ok (Nat.iter 8 crc_bit (Z.lxor crc d)))%exc.

(** [for i in range(2)], stopping at the first exception. *)
Fixpoint crc_loop (data : list Z) (idx : list nat) (crc : Z) : outcome Z :=
  match idx with
  | [] => Ok crc
  | i :: rest =>
      (crc' <- crc_byte data crc i ;; crc_loop data rest crc')%exc
  end.

Definition crc_calc (data : list Z) : outcome Z :=
  (crc <- crc_loop data (seq 0 2) 0xFF ;;
   Ok (Z.land crc 0x0000FF))%exc.

Definition crc_check (data : list Z) (checksum : Z) : outcome bool :=
  (c <- crc_calc data ;; Ok (c =? checksum))%exc.

(** *** The CRC-8 of the specification

    An eight-bit shift register, written from the specification's words:
    initial value 0xFF, polynomial 0x31, most significant bit first, no
    final XOR.  The register never leaves 0..255. *)
Module Crc8.

Definition poly : Z := 0x31.
Definition init : Z := 0xFF.

Definition msb (reg : Z) : bool := Z.testbit reg 7.

Definition shift (reg : Z) : Z :=
  let shifted := (2 * reg) mod 256 in
  if msb reg then Z.lxor shifted poly else shifted.

Definition feed (reg byte : Z) : Z :=
  Nat.iter 8 shift (Z.lxor reg byte).

Definition crc8 (bytes : list Z) : Z := fold_left feed bytes init.

(** The same checksum as a remainder.  An integer stands for the
    polynomial over GF(2) whose coefficients are its bits.  The generator
    is x^8 + x^5 + x^4 + 1, that is 0x31 under the leading x^8; the
    dividend is the message times x^8 with the initial value added to
    its first byte. *)
Definition generator : Z := 0x131.

Fixpoint remainder (fuel : nat) (a : Z) : Z :=
  match fuel with
  | O => a
  | S fuel' =>
      if a <? 256 then a
      else remainder fuel' (Z.lxor a (Z.shiftl generator (Z.log2 a - 8)))
  end.

Definition dividend (d0 d1 : Z) : Z :=
  Z.shiftl (Z.lor (Z.shiftl (Z.lxor d0 init) 8) d1) 8.

(** Sixteen reductions bring a 24-bit dividend under x^8. *)
Definition crc8_remainder (d0 d1 : Z) : Z := remainder 16 (dividend d0 d1).

End Crc8.

Definition all_bytes : list Z := map Z.of_nat (seq 0 256).

Definition is_byte (b : Z) : Prop := 0 <= b < 256.

(** ** Value objects ([sgp30/models.py]) *)

Module Models.

Record SensorInfo : Type := mkSensorInfo {
  maker : string;
  model : option string;
  serial : option string;
  version : option string
}.

(** [value] is annotated [float], the driver stores integers in it. *)
Record Measurement : Type := mkMeasurement {
  name : string;
  unit : string;
  value : Z
}.

Record SensorData : Type := mkSensorData {
  measurements : list Measurement
}.

(** What [dataclasses.asdict] builds: a dict per dataclass, keyed by the
    field names in declaration order; a field of a [Measurement] holds a
    string or a number. *)
Inductive scalar : Type :=
| PyStr (s : string)
| PyInt (n : Z).

Definition measurement_dict : Type := list (string * scalar).
Definition sensor_data_dict : Type := list (string * list measurement_dict).

Definition asdict_measurement (m : Measurement) : measurement_dict :=
  [("name"%string, PyStr (name m));
   ("unit"%string, PyStr (unit m));
   ("value"%string, PyInt (value m))].

Definition asdict (d : SensorData) : sensor_data_dict :=
  [("measurements"%string, map asdict_measurement (measurements d))].

End Models.

(** [get_measurement] returns the dataclass or, with [as_dict], its dict. *)
Inductive measured : Type :=
| AsObject (d : Models.SensorData)
| AsDict (d : Models.sensor_data_dict).

(** ** String formatting *)

Definition hex_digit (d : Z) : ascii :=
  match d with
  | 0 => "0" | 1 => "1" | 2 => "2" | 3 => "3"
  | 4 => "4" | 5 => "5" | 6 => "6" | 7 => "7"
  | 8 => "8" | 9 => "9" | 10 => "A" | 11 => "B"
  | 12 => "C" | 13 => "D" | 14 => "E" | _ => "F"
  end%char.

(** Digits of a non-negative [n], most significant first, pushed in front
    of [acc]; [fuel] bounds the number of digits. *)
Fixpoint hex_loop (fuel : nat) (n : Z) (acc : string) : string :=
  match fuel with
  | O => acc
  | S fuel' =>
      let acc' := String (hex_digit (n mod 16)) acc in
      if n / 16 =? 0 then acc' else hex_loop fuel' (n / 16) acc'
  end.

(** [format(n, "X")] for [0 <= n]: no more than [log2 n + 1] digits. *)
Definition hex_upper (n : Z) : string :=
  hex_loop (S (Z.to_nat (Z.log2 n))) n "".

Fixpoint zeros (k : nat) : string :=
  match k with
  | O => EmptyString
  | S k' => String "0" (zeros k')
  end.

(** Left padding with ["0"] up to [width] characters, never truncating. *)
Definition zfill (width : nat) (s : string) : string :=
  (zeros (width - String.length s) ++ s)%string.

(** ["{:06X}".format(n)]: upper-case hexadecimal, sign-aware zero padding
    to a minimum width of six characters. *)
Definition format_06X (n : Z) : string :=
  if n <? 0
  then String "-" (zfill 5 (hex_upper (- n)))
  else zfill 6 (hex_upper n).

(** [str(n)] for an integer. *)
Definition str_int (n : Z) : string := NilZero.string_of_int (Z.to_int n).

(** [round(n, 0)] on an [int] gives the same [int] back. *)
Definition round0 (n : Z) : Z := n.

(** ** The bus, the clock and the console

    The driver talks to an [smbus2.SMBus] handle, reads the wall clock and
    sleeps.  The [world] is what answers: which bus files exist, which
    7-bit addresses acknowledge a transfer, what the device returns to the
    successive block reads, and the clock.  Every call the driver makes is
    appended to [log] with the instant at which it was made.  The clock
    moves in [sleep] only. *)

Inductive event : Type :=
| EvOpen (bus_no : Z)
| EvReadByteData (addr reg : Z)
| EvWriteBlock (addr reg : Z) (data : list Z)
| EvReadBlock (addr reg len : Z)
| EvWriteByte (addr value : Z)
| EvBusClose
| EvTime
| EvSleep (secs : Q)
| EvPrint (msg : string)
| EvPrintExc.

Record world : Type := mkWorld {
  now : Q;
  bus_present : Z -> bool;
  acks : Z -> bool;
  regs : Z -> Z -> Z;
  inbox : list (list Z);
  opened : bool;
  log : list (Q * event)
}.

Definition record (ev : event) (w : world) : world :=
  {| now := now w; bus_present := bus_present w; acks := acks w;
     regs := regs w; inbox := inbox w; opened := opened w;
     log := log w ++ [(now w, ev)] |}.

Definition advance (secs : Q) (w : world) : world :=
  {| now := (now w + secs)%Q; bus_present := bus_present w; acks := acks w;
     regs := regs w; inbox := inbox w; opened := opened w; log := log w |}.

Definition pop_inbox (w : world) : world :=
  {| now := now w; bus_present := bus_present w; acks := acks w;
     regs := regs w; inbox := tl (inbox w); opened := opened w;
     log := log w |}.

Definition set_opened (b : bool) (w : world) : world :=
  {| now := now w; bus_present := bus_present w; acks := acks w;
     regs := regs w; inbox := inbox w; opened := b; log := log w |}.

(** The attributes of an [SGP30] object; its [__bus] is the bus of the
    world. *)
Record SGP30 : Type := mkSGP30 {
  tracker : Q;
  address : Z
}.

Definition Qltb (x y : Q) : bool :=
  (Qnum x * QDen y <? Qnum y * QDen x)%Z.

(** A method body: it runs on the object and the world, changes both, and
    returns or raises.  What was changed before an exception stays
    changed. *)
Definition M (A : Type) : Type := SGP30 -> world -> outcome A * SGP30 * world.

Module Drv.

Definition ret {A} (a : A) : M A := fun self w => (Ok a, self, w).

Definition raise {A} (e : exn) : M A := fun self w => (Raise e, self, w).

Definition bind {A B} (m : M A) (k : A -> M B) : M B :=
  fun self w =>
    match m self w with
    | (Ok a, self', w') => k a self' w'
    | (Raise e, self', w') => (Raise e, self', w')
    end.

(** [try: m  except <e accepted by catches>: handler]. *)
Definition try_except {A} (m : M A) (catches : exn -> bool)
    (handler : M A) : M A :=
  fun self w =>
    match m self w with
    | (Ok a, self', w') => (Ok a, self', w')
    | (Raise e, self', w') =>
        if catches e then handler self' w' else (Raise e, self', w')
    end.

Definition lift {A} (r : outcome A) : M A := fun self w => (r, self, w).

Definition get_tracker : M Q := fun self w => (Ok (tracker self), self, w).

Definition set_tracker (t : Q) : M unit :=
  fun self w => (Ok tt, {| tracker := t; address := address self |}, w).

Definition get_address : M Z := fun self w => (Ok (address self), self, w).

Definition set_address (a : Z) : M unit :=
  fun self w => (Ok tt, {| tracker := tracker self; address := a |}, w).

(** [time()] *)
Definition time : M Q := fun self w => (Ok (now w), self, record EvTime w).

(** [sleep(secs)] *)
Definition sleep (secs : Q) : M unit :=
  fun self w => (Ok tt, self, advance secs (record (EvSleep secs) w)).

Definition print (msg : string) : M unit :=
  fun self w => (Ok tt, self, record (EvPrint msg) w).

Definition print_exc : M unit :=
  fun self w => (Ok tt, self, record EvPrintExc w).

(** [SMBus(bus_no)] *)
Definition SMBus (bus_no : Z) : M unit :=
  fun self w =>
    let w' := record (EvOpen bus_no) w in
    if bus_present w bus_no
    then (Ok tt, self, set_opened true w')
    else (Raise FileNotFoundError, self, w').

(** A transfer to an address nobody acknowledges fails with [OSError]. *)
Definition transfer {A} (ev : event) (addr : Z) (k : world -> outcome A * world)
    : M A :=
  fun self w =>
    let w' := record ev w in
    if acks w addr
    then let '(r, w'') := k w' in (r, self, w'')
    else (Raise OSError, self, w').

Definition read_byte_data (addr reg : Z) : M Z :=
  transfer (EvReadByteData addr reg) addr
    (fun w => (Ok (regs w addr reg), w)).

Definition write_i2c_block_data (addr reg : Z) (data : list Z) : M unit :=
  transfer (EvWriteBlock addr reg data) addr (fun w => (Ok tt, w)).

(** The device answers the block reads from [inbox], one entry per
    read; with nothing left to answer the read fails. *)
Definition read_i2c_block_data (addr reg len : Z) : M (list Z) :=
  transfer (EvReadBlock addr reg len) addr
    (fun w =>
       match inbox w with
       | reply :: _ => (Ok reply, pop_inbox w)
       | [] => (Raise OSError, w)
       end).

Definition write_byte (addr value : Z) : M unit :=
  transfer (EvWriteByte addr value) addr (fun w => (Ok tt, w)).

Definition bus_close : M unit :=
  fun self w => (Ok tt, self, set_opened false (record EvBusClose w)).

End Drv.

Declare Scope drv_scope.
Delimit Scope drv_scope with drv.
Notation "x <- m ;; k" := (Drv.bind m (fun x => k))
  (at level 61, m at next level, right associativity) : drv_scope.
Notation "m ;; k" := (Drv.bind m (fun _ => k))
  (at level 61, right associativity) : drv_scope.

(** ** The driver ([class SGP30]) *)

Section Driver.

Local Open Scope drv_scope.
Import Drv.

Definition is_OSError (e : exn) : bool :=
  match e with OSError | FileNotFoundError => true | _ => false end.

Definition is_FileNotFoundError (e : exn) : bool :=
  match e with FileNotFoundError => true | _ => false end.

(** [calculate_abs_humidity] is floating-point arithmetic (an
    exponential); the two bytes it returns are left to this function. *)
Variable calculate_abs_humidity : Q -> Q -> list Z.

Definition set_abs_humidity_compensation (temp humi : Q) : M unit :=
  let byte_list := calculate_abs_humidity temp humi in
  crc <- lift (crc_calc byte_list) ;;
  let write_bytes := ([CMD_SET_ABS_HUMI] ++ byte_list ++ [crc])%list in
  addr <- get_address ;;
  write_i2c_block_data addr CMD_HEAD write_bytes ;;
  sleep (5 # 100).

Definition iaq_init : M unit :=
  addr <- get_address ;;
  write_i2c_block_data addr CMD_HEAD [CMD_IAQ_INIT] ;;
  sleep (5 # 100).

Definition soft_reset : M unit :=
  write_byte CMD_HEAD CMD_SOFT_RESET.

(** The message shows the handle, kept abstract here. *)
Definition close : M unit :=
  print "Closing I2C bus" ;;
  soft_reset ;;
  bus_close.

(** [__init__] starts from the object with [__tracker = 0]; [__address]
    is assigned before the first method that reads it. *)
Definition init_body (bus_no : Z) : M unit :=
  set_tracker 0 ;;
  try_except (SMBus bus_no) is_FileNotFoundError
    (print_exc ;; raise (SystemExit 1)) ;;
  set_address I2C_ADDRESS ;;
  try_except
    (addr <- get_address ;; _ <- read_byte_data addr 0 ;; ret tt)
    is_OSError
    (print_exc ;; close ;; raise (SystemExit 1)) ;;
  iaq_init.

Definition blank : SGP30 := {| tracker := 0; address := I2C_ADDRESS |}.

(** [SGP30(bus_no)]: the new object when the constructor returns. *)
Definition new (bus_no : Z) (w : world) : outcome SGP30 * world :=
  match init_body bus_no blank w with
  | (Ok _, self, w') => (Ok self, w')
  | (Raise e, _, w') => (Raise e, w')
  end.

(** The six data bytes of the serial number, most significant first. *)
Definition serial_value (data : list Z) : outcome Z :=
  (d0 <- Exc.index data 0 ;;
   d1 <- Exc.index data 1 ;;
   d3 <- Exc.index data 3 ;;
   d4 <- Exc.index data 4 ;;
   d6 <- Exc.index data 6 ;;
   d7 <- Exc.index data 7 ;;
   Ok (Z.lor (Z.lor (Z.lor (Z.lor (Z.lor
         (Z.shiftl d0 40) (Z.shiftl d1 32)) (Z.shiftl d3 24))
         (Z.shiftl d4 16)) (Z.shiftl d6 8)) d7))%exc.

Definition get_serial_id : M string :=
  addr <- get_address ;;
  write_i2c_block_data addr (nth 0 CMD_GET_SERIAL_ID 0)
    [nth 1 CMD_GET_SERIAL_ID 0] ;;
  sleep T_IDLE ;;
  data <- read_i2c_block_data addr REG_BASE 9 ;;
  v <- lift (serial_value data) ;;
  ret (format_06X v).

Definition get_product_version : M string :=
  addr <- get_address ;;
  write_i2c_block_data addr CMD_HEAD [CMD_GET_FEATURE_SET] ;;
  sleep (5 # 100) ;;
  byte_data <- read_i2c_block_data addr REG_BASE 3 ;;
  data <- lift (Exc.index byte_data 1) ;;
  let version_major := Z.shiftr (Z.land data 0xE0) 5 in
  let version_minor := Z.land data 0x1F in
  ret (str_int version_major ++ "." ++ str_int version_minor)%string.

Definition get_product_type : M (option string) :=
  addr <- get_address ;;
  write_i2c_block_data addr CMD_HEAD [CMD_GET_FEATURE_SET] ;;
  sleep (5 # 100) ;;
  byte_data <- read_i2c_block_data addr REG_BASE 3 ;;
  data <- lift (Exc.index byte_data 0) ;;
  let product_type := Z.shiftr (Z.land data 0xF0) 4 in
  if product_type =? 0 then ret (Some "SGP30"%string) else ret None.

Definition get_iaq_baseline : M unit :=
  addr <- get_address ;;
  write_i2c_block_data addr CMD_HEAD [CMD_GET_IAQ_BASELINE] ;;
  sleep (5 # 100) ;;
  _ <- read_i2c_block_data addr REG_BASE 6 ;;
  sleep (5 # 100).

Definition get_sensor_info : M Models.SensorInfo :=
  serial <- get_serial_id ;;
  product_type <- get_product_type ;;
  product_version <- get_product_version ;;
  ret (Models.mkSensorInfo SENSOR_MAKER product_type (Some serial)
         (Some product_version)).

(** [data[hi] << 8 | data[lo]] *)
Definition word_at (data : list Z) (hi lo : nat) : outcome Z :=
  (h <- Exc.index data hi ;;
   l <- Exc.index data lo ;;
   Ok (Z.lor (Z.shiftl h 8) l))%exc.

(** The end of [get_measurement], from [co2 = ...] to the [return]s:
    the two words of the reply, wrapped in the value objects. *)
Definition measurement_of (as_dict : bool) (data : list Z) : outcome measured :=
  (co2 <- (v <- word_at data 0 1 ;; Ok (round0 v)) ;;
   tvoc <- (v <- word_at data 3 4 ;; Ok (round0 v)) ;;
   let measured :=
     Models.mkSensorData
       [Models.mkMeasurement "co2" "ppm" co2;
        Models.mkMeasurement "tvoc" "ppb" tvoc] in
   if as_dict
   then Ok (AsDict (Models.asdict measured))
   else Ok (AsObject measured))%exc.

(** [temp] and [humi] are accepted and not read: the call of
    [set_abs_humidity_compensation] is commented out in the source. *)
Definition get_measurement (as_dict : bool) (temp humi : Q) : M measured :=
  t <- time ;;
  last <- get_tracker ;;
  (if Qltb (t - last) 1 then sleep 1 else ret tt) ;;
  addr <- get_address ;;
  write_i2c_block_data addr CMD_HEAD [CMD_MEASURE_IAQ] ;;
  sleep 1 ;;
  data <- read_i2c_block_data addr REG_BASE 6 ;;
  t' <- time ;;
  set_tracker t' ;;
  lift (measurement_of as_dict data).

End Driver.

(** ** Observing a call *)

Definition result {A} (x : outcome A * SGP30 * world) : outcome A :=
  fst (fst x).

Definition self_after {A} (x : outcome A * SGP30 * world) : SGP30 :=
  snd (fst x).

Definition world_after {A} (x : outcome A * SGP30 * world) : world := snd x.

(** The calls logged between [w] and a later world [w']. *)
Definition entries_since (w w' : world) : list (Q * event) :=
  skipn (List.length (log w)) (log w').

Fixpoint Zlist_eqb (l1 l2 : list Z) : bool :=
  match l1, l2 with
  | [], [] => true
  | x :: l1', y :: l2' => (x =? y) && Zlist_eqb l1' l2'
  | _, _ => false
  end.

(** The "Measure IAQ" command going out on the wire. *)
Definition is_measure_command (e : event) : bool :=
  match e with
  | EvWriteBlock _ reg data =>
      (reg =? CMD_HEAD) && Zlist_eqb data [CMD_MEASURE_IAQ]
  | _ => false
  end.

(** A "Set absolute humidity" command: opcode 0x61 leading the payload. *)
Definition is_humidity_command (e : event) : bool :=
  match e with
  | EvWriteBlock _ reg (op :: _) => (reg =? CMD_HEAD) && (op =? CMD_SET_ABS_HUMI)
  | _ => false
  end.

(** The calls an identification query is made of, on the device at
    [addr]: the serial-ID command, the feature-set command, the idle
    waits and the reads of the replies. *)
Definition is_identification_call (addr : Z) (e : event) : bool :=
  match e with
  | EvWriteBlock a reg data =>
      (a =? addr) &&
      (((reg =? 0x36) && Zlist_eqb data [0x82]) ||
       ((reg =? CMD_HEAD) && Zlist_eqb data [CMD_GET_FEATURE_SET]))
  | EvReadBlock a reg _ => (a =? addr) && (reg =? REG_BASE)
  | EvSleep _ => true
  | _ => false
  end.

(** Seconds slept before the first bus write of a list of logged calls. *)
Fixpoint delay_before_write (entries : list (Q * event)) : Q :=
  match entries with
  | [] => 0
  | (_, EvWriteBlock _ _ _) :: _ => 0
  | (_, EvSleep d) :: rest => d + delay_before_write rest
  | _ :: rest => delay_before_write rest
  end.

(** Instant of the latest "Measure IAQ" command in a log. *)
Fixpoint last_issued (entries : list (Q * event)) : option Q :=
  match entries with
  | [] => None
  | (t, e) :: rest =>
      match last_issued rest with
      | Some t' => Some t'
      | None => if is_measure_command e then Some t else None
      end
  end.

(** The call logged right after the first "Measure IAQ" command. *)
Fixpoint next_after_measure (entries : list (Q * event)) : option event :=
  match entries with
  | [] => None
  | (_, e) :: rest =>
      if is_measure_command e
      then match rest with (_, e') :: _ => Some e' | [] => None end
      else next_after_measure rest
  end.

(** A word of a reply, [hi, lo, crc] from offset [i], whose checksum byte
    is not the checksum of its two data bytes. *)
Definition word_corrupt (reply : list Z) (i : nat) : bool :=
  match nth_error reply i, nth_error reply (i + 1), nth_error reply (i + 2) with
  | Some hi, Some lo, Some crc =>
      match crc_check [hi; lo] crc with
      | Ok ok => negb ok
      | Raise _ => false
      end
  | _, _, _ => false
  end.

Definition checksum_disagrees (reply : list Z) : bool :=
  word_corrupt reply 0 || word_corrupt reply 3.

(** *** Stages of [get_measurement] *)

(** The world when the "Measure IAQ" command has been handed to the bus:
    the clock was read, and a full second slept if less than one had
    passed since [tracker]. *)
Definition issued (self : SGP30) (w : world) : world :=
  let w1 := record EvTime w in
  record (EvWriteBlock (address self) CMD_HEAD [CMD_MEASURE_IAQ])
    (if Qltb (now w - tracker self) 1
     then advance 1 (record (EvSleep 1) w1)
     else w1).

(** The world when the reply has been asked for, a second later. *)
Definition asked (self : SGP30) (w : world) : world :=
  record (EvReadBlock (address self) REG_BASE 6)
    (advance 1 (record (EvSleep 1) (issued self w))).

(** The pair of measurements for two words, as [get_measurement] hands
    it out. *)
Definition reading (as_dict : bool) (co2 tvoc : Z) : measured :=
  let data :=
    Models.mkSensorData
      [Models.mkMeasurement "co2" "ppm" co2;
       Models.mkMeasurement "tvoc" "ppb" tvoc] in
  if as_dict then AsDict (Models.asdict data) else AsObject data.

Definition with_inbox (replies : list (list Z)) (w : world) : world :=
  {| now := now w; bus_present := bus_present w; acks := acks w;
     regs := regs w; inbox := replies; opened := opened w; log := log w |}.

(** A six-byte reply with other bytes in the two checksum places. *)
Definition set_checksums (c2 c5 : Z) (reply : list Z) : list Z :=
  match reply with
  | [b0; b1; _; b3; b4; _] => [b0; b1; c2; b3; b4; c5]
  | _ => reply
  end.

(** *** What the specification asks of the timestamp

    Read on the log of one call of [get_measurement] started in [w]. *)

(** The call sleeps the time missing to one second since the timestamp,
    and does not sleep past one second. *)
Definition sleeps_remaining_time {A} (self : SGP30) (w : world)
    (run : outcome A * SGP30 * world) : Prop :=
  let elapsed := (now w - tracker self)%Q in
  let delay := delay_before_write (entries_since w (world_after run)) in
  ((elapsed < 1)%Q -> (delay == 1 - elapsed)%Q) /\
  ((1 < elapsed)%Q -> (delay == 0)%Q).

(** The same, counting from the instant the last measurement command
    went out on the wire. *)
Definition spaced_from_issuance {A} (w : world)
    (run : outcome A * SGP30 * world) : Prop :=
  forall t, last_issued (log w) = Some t ->
    let elapsed := (now w - t)%Q in
    let delay := delay_before_write (entries_since w (world_after run)) in
    ((elapsed < 1)%Q -> (delay == 1 - elapsed)%Q) /\
    ((1 < elapsed)%Q -> (delay == 0)%Q).

(** The timestamp is taken right after the command write and holds the
    instant of the write. *)
Definition stamped_at_issuance {A} (w : world)
    (run : outcome A * SGP30 * world) : Prop :=
  next_after_measure (entries_since w (world_after run)) = Some EvTime /\
  exists t, last_issued (entries_since w (world_after run)) = Some t /\
            (tracker (self_after run) == t)%Q.

(** *** Identification queries

    [frames addr m post]: run on an object whose address is [addr], the
    method body [m] leaves the object as it found it, makes nothing but
    identification calls on the device at [addr], and what it returns
    satisfies [post]. *)
Definition frames {A} (addr : Z) (m : M A) (post : A -> Prop) : Prop :=
  forall self w,
    address self = addr ->
    self_after (m self w) = self /\
    (forall a, result (m self w) = Ok a -> post a) /\
    exists entries,
      log (world_after (m self w)) = log w ++ entries /\
      forallb (is_identification_call addr) (map snd entries) = true.

(** The general-call address of the I2C bus, 0x00; the source names no
    such constant. *)
Definition GENERAL_CALL_ADDRESS : Z := 0x00.

(** ** Worlds used in the examples *)

Module Bench.

(** A bus no. 1 with the sensor alone on it, at 0x58; the general-call
    address is acknowledged as on any I2C bus. *)
Definition sensor_only (a : Z) : bool :=
  (a =? I2C_ADDRESS) || (a =? GENERAL_CALL_ADDRESS).

Definition bench (t : Q) (replies : list (list Z)) : world :=
  {| now := t;
     bus_present := fun b => b =? 1;
     acks := sensor_only;
     regs := fun _ _ => 0;
     inbox := replies;
     opened := true;
     log := [] |}.

(** 500 ppm and 100 ppb with the checksums of the two words. *)
Definition good_reply : list Z := [0x01; 0xF4; 0x33; 0x00; 0x64; 0xFE].

(** The same words with both checksum bytes wrong. *)
Definition corrupted_reply : list Z := [0x01; 0xF4; 0x00; 0x00; 0x64; 0x00].

(** A serial number whose first word is zero. *)
Definition serial_reply : list Z :=
  [0x00; 0x00; 0x81; 0x01; 0xA2; 0xEB; 0xB3; 0xC4; 0xBE].

Definition feature_reply : list Z := [0x00; 0x45; 0x00].

Definition sensor : SGP30 := {| tracker := 0; address := I2C_ADDRESS |}.

(** A first measurement at t = 100 s, half a second of idling in the
    caller, then a second measurement. *)
Definition first_call :=
  get_measurement false 0 0 sensor (bench 100 [good_reply; good_reply]).

Definition second_call :=
  get_measurement false 0 0 (self_after first_call)
    (advance (1 # 2) (world_after first_call)).

(** A measurement whose reply never comes. *)
Definition lost_call := get_measurement false 0 0 sensor (bench 100 []).

End Bench.

(** ** Error patterns of a checksummed word *)

(** Number of bits set among the low eight of [b]. *)
Definition weight (b : Z) : Z :=
  fold_right (fun i acc => Z.b2z (Z.testbit b (Z.of_nat i)) + acc) 0 (seq 0 8).

(** The two loops of [crc_calc] with the register started at 0 instead of
    0xFF: by how much the checksum moves when the two data elements are
    XORed with [e0] and [e1]. *)
Definition syndrome (e0 e1 : Z) : Z :=
  Z.land (Nat.iter 8 crc_bit (Z.lxor (Nat.iter 8 crc_bit e0) e1)) 0xFF.

(** ** Reading hexadecimal back *)

(** The value of a hexadecimal digit, in either case, from its character
    code: ["0"] is 48, ["A"] is 65 and ["a"] is 97. *)
Definition hex_digit_value (c : ascii) : option Z :=
  let code := Z.of_N (N_of_ascii c) in
  if (48 <=? code) && (code <=? 57) then Some (code - 48)
  else if (65 <=? code) && (code <=? 70) then Some (code - 55)
  else if (97 <=? code) && (code <=? 102) then Some (code - 87)
  else None.

(** The digits of [s] read after the value [v]; [None] at a character
    that is no hexadecimal digit. *)
Fixpoint hex_value_from (v : Z) (s : string) : option Z :=
  match s with
  | EmptyString => Some v
  | String c s' =>
      match hex_digit_value c with
      | Some d => hex_value_from (16 * v + d) s'
      | None => None
      end
  end.

(** [int(s, 16)] on an optional minus sign followed by hexadecimal
    digits, the only strings the driver passes to it; [None] stands for
    [ValueError]. *)
Definition int16 (s : string) : option Z :=
  match s with
  | EmptyString => None
  | String "-" EmptyString => None
  | String "-" s' => option_map Z.opp (hex_value_from 0 s')
  | _ => hex_value_from 0 s
  end.

(** ** The bytes of the absolute humidity ([calculate_abs_humidity]) *)

Definition lower_hex (c : ascii) : ascii :=
  match c with
  | "A" => "a" | "B" => "b" | "C" => "c"
  | "D" => "d" | "E" => "e" | "F" => "f"
  | _ => c
  end%char.

Fixpoint string_map (f : ascii -> ascii) (s : string) : string :=
  match s with
  | EmptyString => EmptyString
  | String c s' => String (f c) (string_map f s')
  end.

(** [format(n, "x")] for [0 <= n]: the digits of ["X"] in lower case. *)
Definition hex_lower (n : Z) : string := string_map lower_hex (hex_upper n).

(** ["{:04x}".format(n)] *)
Definition format_04x (n : Z) : string :=
  if n <? 0
  then String "-" (zfill 3 (hex_lower (- n)))
  else zfill 4 (hex_lower n).

(** The last two lines of [calculate_abs_humidity], from the integer
    [n = int(abs_humi * 256)] that the floating-point line above them
    produces: [n] is printed in hexadecimal and the string is cut after
    its second character. *)
Definition abs_humidity_bytes (n : Z) : option (list Z) :=
  let abs_humi_hex := format_04x n in
  match int16 (substring 0 2 abs_humi_hex),
        int16 (substring 2 (String.length abs_humi_hex - 2) abs_humi_hex) with
  | Some hi, Some lo => Some [hi; lo]
  | _, _ => None
  end.

(** ** The world after a query

    A command written to [addr], [secs] seconds of idling and a block
    read answered by the first reply of [inbox]. *)
Definition queried (addr reg : Z) (data : list Z) (secs : Q) (len : Z)
    (w : world) : world :=
  pop_inbox
    (record (EvReadBlock addr REG_BASE len)
       (advance secs
          (record (EvSleep secs) (record (EvWriteBlock addr reg data) w)))).

(** * Properties *)

(** ** Checksum engine *)

Section Checksum.

Lemma land_255_mod (x : Z) : Z.land x 255 = x mod 256.
Proof. exact (Z.land_ones x 8 ltac:(lia)). Qed.

Lemma land_255_range (x : Z) : 0 <= Z.land x 255 <= 255.
Proof.
  rewrite land_255_mod.
  pose proof (Z.mod_pos_bound x 256 ltac:(lia)). lia.
Qed.

Lemma land_255_byte (b : Z) : is_byte b -> Z.land b 255 = b.
Proof.
  intros Hb. rewrite land_255_mod. apply Z.mod_small. exact Hb.
Qed.

Lemma land_lxor_255 (a b : Z) :
  Z.land (Z.lxor a b) 255 = Z.lxor (Z.land a 255) (Z.land b 255).
Proof.
  apply Z.bits_inj'. intros n Hn.
  rewrite Z.lxor_spec, !Z.land_spec, Z.lxor_spec.
  destruct (Z.testbit a n), (Z.testbit b n), (Z.testbit 255 n); reflexivity.
Qed.

(** The test [crc & 0x80] of the source reads bit 7. *)
Lemma high_bit_test (x : Z) : (Z.land x 0x80 =? 0) = negb (Z.testbit x 7).
Proof.
  destruct (Z.testbit x 7) eqn:Hbit; cbn [negb].
  - apply Z.eqb_neq. intros Hz.
    assert (Hb : Z.testbit (Z.land x 128) 7 = true).
    { rewrite Z.land_spec, Hbit. reflexivity. }
    rewrite Hz in Hb. discriminate Hb.
  - apply Z.eqb_eq. apply Z.bits_inj'. intros n Hn.
    rewrite Z.land_spec, Z.bits_0.
    destruct (Z.eq_dec n 7) as [-> | Hne].
    + rewrite Hbit. reflexivity.
    + replace 128 with (2 ^ 7) by reflexivity.
      rewrite Z.pow2_bits_false by congruence.
      apply andb_false_r.
Qed.

Lemma testbit7_land_255 (x : Z) : Z.testbit (Z.land x 255) 7 = Z.testbit x 7.
Proof. rewrite Z.land_spec. apply andb_true_r. Qed.

Lemma shiftl_1_land_255 (x : Z) :
  Z.land (Z.shiftl x 1) 255 = (2 * Z.land x 255) mod 256.
Proof.
  rewrite !land_255_mod, Z.shiftl_mul_pow2 by lia.
  change (2 ^ 1) with 2. rewrite (Z.mul_comm x 2).
  symmetry. apply Z.mul_mod_idemp_r. lia.
Qed.

(** One round of the source, seen through the final mask, is one shift
    of the eight-bit register. *)
Lemma crc_bit_masked (x : Z) :
  Z.land (crc_bit x) 255 = Crc8.shift (Z.land x 255).
Proof.
  unfold crc_bit, Crc8.shift, Crc8.msb, Crc8.poly.
  rewrite high_bit_test, testbit7_land_255.
  destruct (Z.testbit x 7); cbn [negb].
  - rewrite land_lxor_255, shiftl_1_land_255. reflexivity.
  - apply shiftl_1_land_255.
Qed.

Lemma crc_rounds_masked (n : nat) (x : Z) :
  Z.land (Nat.iter n crc_bit x) 255 = Nat.iter n Crc8.shift (Z.land x 255).
Proof.
  induction n as [| n IH].
  - reflexivity.
  - rewrite !Nat.iter_succ, crc_bit_masked, IH. reflexivity.
Qed.

(** What [crc_calc] returns on a list with at least two elements. *)
Lemma crc_calc_two (d0 d1 : Z) (rest : list Z) :
  crc_calc (d0 :: d1 :: rest) =
  Ok (Z.land (Nat.iter 8 crc_bit
                (Z.lxor (Nat.iter 8 crc_bit (Z.lxor 0xFF d0)) d1)) 0xFF).
Proof. reflexivity. Qed.

Lemma crc_calc_short (data : list Z) :
  (List.length data < 2)%nat -> crc_calc data = Raise IndexError.
Proof.
  destruct data as [| d0 [| d1 rest]]; cbn [List.length]; intros Hlen.
  - reflexivity.
  - reflexivity.
  - lia.
Qed.

Lemma crc_check_of_calc (data : list Z) (c : Z) :
  crc_calc data = Ok c -> crc_check data c = Ok true.
Proof.
  intros Hc. unfold crc_check. rewrite Hc. cbn [Exc.bind].
  rewrite Z.eqb_refl. reflexivity.
Qed.

End Checksum.

Lemma all_bytes_complete (b : Z) : is_byte b -> In b all_bytes.
Proof.
  intros Hb. unfold all_bytes, is_byte in *.
  rewrite <- (Z2Nat.id b) by lia.
  apply in_map, in_seq. lia.
Qed.

(** On every pair of bytes the shift register holds the remainder of the
    division by the generator polynomial: checked on the 65536 pairs. *)
Lemma crc8_is_remainder (d0 d1 : Z) :
  is_byte d0 -> is_byte d1 -> Crc8.crc8 [d0; d1] = Crc8.crc8_remainder d0 d1.
Proof.
  intros H0 H1.
  assert (Hall : forallb (fun x => forallb (fun y =>
                   Crc8.crc8 [x; y] =? Crc8.crc8_remainder x y) all_bytes)
                   all_bytes = true) by (vm_compute; reflexivity).
  rewrite forallb_forall in Hall.
  specialize (Hall d0 (all_bytes_complete d0 H0)).
  rewrite forallb_forall in Hall.
  apply Z.eqb_eq, Hall, all_bytes_complete, H1.
Qed.

(** The vector of the sensor's datasheet: the checksum of 0xBEEF is 0x92. *)
Example crc_calc_datasheet_vector : crc_calc [0xBE; 0xEF] = Ok 0x92.
Proof. reflexivity. Qed.

(** C1. On every pair of bytes [crc_calc] returns the CRC-8 of the pair
    for the initial value 0xFF and the polynomial 0x31, most significant
    bit first and without final XOR, as an eight-bit shift register
    computes it, which is the remainder of the division by
    x^8 + x^5 + x^4 + 1; and [crc_check] accepts the checksum that
    [crc_calc] returns. *)
Theorem crc_calc_is_crc8 (d0 d1 : Z) :
  is_byte d0 -> is_byte d1 ->
  crc_calc [d0; d1] = Ok (Crc8.crc8 [d0; d1]) /\
  Crc8.crc8 [d0; d1] = Crc8.crc8_remainder d0 d1 /\
  (forall c, crc_calc [d0; d1] = Ok c -> crc_check [d0; d1] c = Ok true).
Proof.
  intros H0 H1. split; [| split].
  - rewrite crc_calc_two. f_equal.
    change 0xFF with 255.
    rewrite crc_rounds_masked, land_lxor_255, crc_rounds_masked, land_lxor_255.
    rewrite (land_255_byte d0 H0), (land_255_byte d1 H1).
    change (Z.land 255 255) with 255.
    unfold Crc8.crc8, Crc8.feed, Crc8.init. cbn [fold_left].
    reflexivity.
  - apply crc8_is_remainder; assumption.
  - intros c. apply crc_check_of_calc.
Qed.

Lemma crc_calc_is_crc8_witness :
  crc_calc [0xBE; 0xEF] = Ok (Crc8.crc8 [0xBE; 0xEF]) /\
  Crc8.crc8 [0xBE; 0xEF] = Crc8.crc8_remainder 0xBE 0xEF /\
  (forall c, crc_calc [0xBE; 0xEF] = Ok c -> crc_check [0xBE; 0xEF] c = Ok true).
Proof.
  apply (crc_calc_is_crc8 0xBE 0xEF); unfold is_byte; lia.
Defined.

(** C10. A list with at least two elements gets a checksum between 0 and
    255 that only its first two elements decide; a shorter list makes
    [crc_calc] raise [IndexError]. *)
Theorem crc_calc_reads_two_elements (data : list Z) :
  ((2 <= List.length data)%nat ->
   exists c, crc_calc data = Ok c /\ 0 <= c <= 255 /\
     forall data', firstn 2 data' = firstn 2 data -> crc_calc data' = Ok c) /\
  ((List.length data < 2)%nat -> crc_calc data = Raise IndexError).
Proof.
  split; [| apply crc_calc_short].
  destruct data as [| d0 [| d1 rest]]; cbn [List.length]; intros Hlen; try lia.
  eexists. split; [apply crc_calc_two |]. split.
  - change 0xFF with 255. apply land_255_range.
  - intros data' Hfirst.
    destruct data' as [| e0 [| e1 rest']]; cbn [firstn] in Hfirst;
      try discriminate Hfirst.
    injection Hfirst as -> ->. apply crc_calc_two.
Qed.

Lemma crc_calc_reads_two_elements_witness :
  (exists c, crc_calc [0xBE; 0xEF; 0x07] = Ok c /\ 0 <= c <= 255 /\
     forall data', firstn 2 data' = firstn 2 [0xBE; 0xEF; 0x07] ->
       crc_calc data' = Ok c) /\
  crc_calc [0xBE] = Raise IndexError.
Proof.
  split.
  - apply (crc_calc_reads_two_elements [0xBE; 0xEF; 0x07]). simpl. lia.
  - apply (crc_calc_reads_two_elements [0xBE]). simpl. lia.
Defined.

(** ** Sensor session *)

Lemma Qltb_lt (x y : Q) : Qltb x y = true <-> (x < y)%Q.
Proof. unfold Qltb, Qlt. apply Z.ltb_lt. Qed.

Lemma Qltb_nlt (x y : Q) : Qltb x y = false <-> ~ (x < y)%Q.
Proof.
  rewrite <- Qltb_lt. destruct (Qltb x y); split; congruence.
Qed.

Lemma entries_since_app (w w' : world) (l : list (Q * event)) :
  log w' = log w ++ l -> entries_since w w' = l.
Proof.
  intros Hlog. unfold entries_since. rewrite Hlog.
  rewrite skipn_app, skipn_all, Nat.sub_diag. reflexivity.
Qed.

Ltac drv_unfold :=
  unfold Drv.bind, Drv.ret, Drv.raise, Drv.lift, Drv.time, Drv.sleep,
    Drv.print, Drv.print_exc, Drv.get_tracker, Drv.set_tracker,
    Drv.get_address, Drv.set_address, Drv.write_i2c_block_data,
    Drv.read_i2c_block_data, Drv.read_byte_data, Drv.write_byte,
    Drv.bus_close, Drv.transfer.

(** Runs a method body as far as the facts [H] about the world decide its
    branches; the clock arithmetic is left as written. *)
Ltac drv_run H :=
  drv_unfold;
  repeat (progress (cbn -[Qplus Qminus Qltb Qle Qlt Qeq]; rewrite ?H)).

(** Brings [log w'] to the shape [log w ++ entries]. *)
Ltac log_shape :=
  cbn -[Qplus Qminus Qltb Qle Qlt Qeq];
  repeat rewrite <- app_assoc; cbn [app].

Section Measurement.

Variables (as_dict : bool) (temp humi : Q) (self : SGP30) (w : world).


Lemma get_measurement_nack :
  acks w (address self) = false ->
  get_measurement as_dict temp humi self w = (Raise OSError, self, issued self w).
Proof.
  intros Hack. unfold get_measurement, issued.
  destruct (Qltb (now w - tracker self) 1) eqn:Hlt; drv_run Hack;
    rewrite Hlt; drv_run Hack; reflexivity.
Qed.

Lemma get_measurement_silent :
  acks w (address self) = true -> inbox w = [] ->
  get_measurement as_dict temp humi self w = (Raise OSError, self, asked self w).
Proof.
  intros Hack Hin. unfold get_measurement, asked, issued.
  destruct (Qltb (now w - tracker self) 1) eqn:Hlt; drv_run Hack;
    rewrite Hlt; drv_run Hack; rewrite Hin; reflexivity.
Qed.

Lemma get_measurement_reply (reply : list Z) (rest : list (list Z)) :
  acks w (address self) = true -> inbox w = reply :: rest ->
  get_measurement as_dict temp humi self w =
  (measurement_of as_dict reply,
   {| tracker := now (asked self w); address := address self |},
   record EvTime (pop_inbox (asked self w))).
Proof.
  intros Hack Hin. unfold get_measurement, asked, issued.
  destruct (Qltb (now w - tracker self) 1) eqn:Hlt; drv_run Hack;
    rewrite Hlt; drv_run Hack; rewrite Hin; reflexivity.
Qed.

End Measurement.

Lemma measurement_of_six (as_dict : bool) (b0 b1 b2 b3 b4 b5 : Z) :
  measurement_of as_dict [b0; b1; b2; b3; b4; b5] =
  Ok (reading as_dict (Z.lor (Z.shiftl b0 8) b1) (Z.lor (Z.shiftl b3 8) b4)).
Proof. destruct as_dict; reflexivity. Qed.

Lemma length_six (reply : list Z) :
  List.length reply = 6%nat ->
  exists b0 b1 b2 b3 b4 b5, reply = [b0; b1; b2; b3; b4; b5].
Proof.
  intros Hlen.
  do 6 (destruct reply as [| ? reply]; [discriminate Hlen |]).
  destruct reply; [| discriminate Hlen].
  repeat eexists.
Qed.

(** The decoding raises nothing but [IndexError]. *)
Lemma measurement_of_raises (as_dict : bool) (data : list Z) (e : exn) :
  measurement_of as_dict data = Raise e -> e = IndexError.
Proof.
  unfold measurement_of, word_at, Exc.index, Exc.bind.
  repeat match goal with
         | |- context [nth_error data ?i] => destruct (nth_error data i)
         end;
    destruct as_dict; congruence.
Qed.

(** C5. A six-byte reply [b0, b1, b2, b3, b4, b5] is decoded to a CO2
    measurement of [b0 << 8 | b1] in "ppm" and a TVOC measurement of
    [b3 << 8 | b4] in "ppb"; the bytes 0x01, 0xF4 and 0x00, 0x64, each
    word followed by its checksum, give 500 ppm and 100 ppb. *)
Theorem get_measurement_decodes (as_dict : bool) (temp humi : Q)
    (self : SGP30) (w : world) (rest : list (list Z)) :
  acks w (address self) = true ->
  (forall b0 b1 b2 b3 b4 b5,
     inbox w = [b0; b1; b2; b3; b4; b5] :: rest ->
     result (get_measurement as_dict temp humi self w) =
     Ok (reading as_dict (Z.lor (Z.shiftl b0 8) b1) (Z.lor (Z.shiftl b3 8) b4))) /\
  (forall c1 c2,
     crc_calc [0x01; 0xF4] = Ok c1 -> crc_calc [0x00; 0x64] = Ok c2 ->
     inbox w = [0x01; 0xF4; c1; 0x00; 0x64; c2] :: rest ->
     result (get_measurement as_dict temp humi self w) =
     Ok (reading as_dict 500 100)).
Proof.
  intros Hack. split.
  - intros b0 b1 b2 b3 b4 b5 Hin.
    rewrite (get_measurement_reply _ _ _ _ _ _ _ Hack Hin).
    apply measurement_of_six.
  - intros c1 c2 _ _ Hin.
    rewrite (get_measurement_reply _ _ _ _ _ _ _ Hack Hin).
    apply measurement_of_six.
Qed.

Lemma get_measurement_decodes_witness :
  result (get_measurement false 0 0 Bench.sensor
            (Bench.bench 100 [Bench.good_reply])) =
  Ok (AsObject
        (Models.mkSensorData
           [Models.mkMeasurement "co2" "ppm" 500;
            Models.mkMeasurement "tvoc" "ppb" 100])).
Proof.
  exact (proj2 (get_measurement_decodes false 0 0 Bench.sensor
                  (Bench.bench 100 [Bench.good_reply]) [] eq_refl)
           0x33 0xFE eq_refl eq_refl eq_refl).
Defined.

(** C2, as the code has it.  [get_measurement] verifies no checksum.
    For every six-byte reply [b0, b1, b2, b3, b4, b5], whether or not
    [b2] and [b5] are the checksums of their words, the call returns the
    measurement decoded from the data bytes: CO2 [b0 << 8 | b1] in "ppm"
    and TVOC [b3 << 8 | b4] in "ppb".  It raises no error, and putting
    any other bytes [c2], [c5] in the checksum places returns the same
    measurement. *)
Theorem get_measurement_ignores_checksums (as_dict : bool) (temp humi : Q)
    (self : SGP30) (w : world) (b0 b1 b2 b3 b4 b5 : Z)
    (rest : list (list Z)) (c2 c5 : Z) :
  acks w (address self) = true ->
  let reply := [b0; b1; b2; b3; b4; b5] in
  let run := get_measurement as_dict temp humi self
               (with_inbox (reply :: rest) w) in
  let run' := get_measurement as_dict temp humi self
                (with_inbox (set_checksums c2 c5 reply :: rest) w) in
  let decoded :=
    reading as_dict (Z.lor (Z.shiftl b0 8) b1) (Z.lor (Z.shiftl b3 8) b4) in
  result run = Ok decoded /\
  result run' = Ok decoded /\
  is_ok (result run) = true /\
  result run' = result run.
Proof.
  intros Hack reply run run' decoded. subst reply run run' decoded.
  rewrite (get_measurement_reply as_dict temp humi self
             (with_inbox ([b0; b1; b2; b3; b4; b5] :: rest) w)
             [b0; b1; b2; b3; b4; b5] rest Hack eq_refl).
  rewrite (get_measurement_reply as_dict temp humi self
             (with_inbox (set_checksums c2 c5 [b0; b1; b2; b3; b4; b5] :: rest) w)
             [b0; b1; c2; b3; b4; c5] rest Hack eq_refl).
  unfold result. cbn [fst]. rewrite !measurement_of_six.
  repeat split; reflexivity.
Qed.

Lemma get_measurement_ignores_checksums_witness :
  checksum_disagrees Bench.corrupted_reply = true /\
  result (get_measurement false 0 0 Bench.sensor
            (with_inbox [Bench.corrupted_reply] (Bench.bench 100 []))) =
  Ok (AsObject
        (Models.mkSensorData
           [Models.mkMeasurement "co2" "ppm" 500;
            Models.mkMeasurement "tvoc" "ppb" 100])) /\
  result (get_measurement false 0 0 Bench.sensor
            (with_inbox [set_checksums 0x33 0xFE Bench.corrupted_reply]
               (Bench.bench 100 []))) =
  Ok (AsObject
        (Models.mkSensorData
           [Models.mkMeasurement "co2" "ppm" 500;
            Models.mkMeasurement "tvoc" "ppb" 100])).
Proof.
  split; [reflexivity |].
  destruct (get_measurement_ignores_checksums false 0 0 Bench.sensor
              (Bench.bench 100 []) 0x01 0xF4 0x00 0x00 0x64 0x00 [] 0x33 0xFE
              eq_refl)
    as (Hrun & Hrun' & _ & _).
  split; [exact Hrun | exact Hrun'].
Defined.

(** C2, counterexample.  The reply 01 F4 00 | 00 64 00 carries two wrong
    checksum bytes (the right ones are 0x33 and 0xFE), and
    [get_measurement] returns 500 ppm and 100 ppb for it: it is false that
    every reply with a disagreeing checksum makes the call raise. *)
Lemma corrupted_reply_is_decoded :
  ~ (forall self w reply rest,
       acks w (address self) = true ->
       inbox w = reply :: rest ->
       List.length reply = 6%nat ->
       checksum_disagrees reply = true ->
       is_ok (result (get_measurement false 0 0 self w)) = false).
Proof.
  intros Hclaim.
  specialize (Hclaim Bench.sensor (Bench.bench 100 [Bench.corrupted_reply])
                Bench.corrupted_reply [] eq_refl eq_refl eq_refl eq_refl).
  discriminate Hclaim.
Qed.

(** *** Timing of the measurement command *)

Lemma log_issued (self : SGP30) (w : world) :
  log (issued self w) =
  log w ++
  (now w, EvTime) ::
  (if Qltb (now w - tracker self) 1
   then [(now w, EvSleep 1);
         ((now w + 1)%Q, EvWriteBlock (address self) CMD_HEAD [CMD_MEASURE_IAQ])]
   else [(now w, EvWriteBlock (address self) CMD_HEAD [CMD_MEASURE_IAQ])]).
Proof.
  unfold issued. destruct (Qltb (now w - tracker self) 1); log_shape; reflexivity.
Qed.

Lemma log_asked (self : SGP30) (w : world) :
  log (asked self w) =
  log (issued self w) ++
  [(now (issued self w), EvSleep 1);
   ((now (issued self w) + 1)%Q, EvReadBlock (address self) REG_BASE 6)].
Proof. unfold asked. log_shape. reflexivity. Qed.

(** Whatever happens to the call, its log starts with the stage that
    issues the command. *)
Lemma get_measurement_log (as_dict : bool) (temp humi : Q)
    (self : SGP30) (w : world) :
  exists tail,
    log (world_after (get_measurement as_dict temp humi self w)) =
    log (issued self w) ++ tail.
Proof.
  destruct (acks w (address self)) eqn:Hack.
  - destruct (inbox w) as [| reply rest] eqn:Hin.
    + rewrite (get_measurement_silent _ _ _ _ _ Hack Hin).
      unfold world_after. cbn [snd]. rewrite log_asked. eexists. reflexivity.
    + rewrite (get_measurement_reply _ _ _ _ _ _ _ Hack Hin).
      unfold world_after. cbn [snd].
      change (log (record EvTime (pop_inbox (asked self w))))
        with (log (asked self w) ++ [(now (asked self w), EvTime)]).
      rewrite log_asked, <- app_assoc. eexists. reflexivity.
  - rewrite (get_measurement_nack _ _ _ _ _ Hack).
    exists []. unfold world_after. cbn [snd]. symmetry. apply app_nil_r.
Qed.

(** C3, as the code has it.  The call compares the clock with the
    timestamp of the session.  When less than one second separates them it
    sleeps one full second before the command write, which is at least the
    time missing to one second when the clock has not run backwards;
    otherwise the command is written at once, without any sleep. *)
Theorem get_measurement_spacing (as_dict : bool) (temp humi : Q)
    (self : SGP30) (w : world) :
  let elapsed := (now w - tracker self)%Q in
  let entries :=
    entries_since w (world_after (get_measurement as_dict temp humi self w)) in
  let command := EvWriteBlock (address self) CMD_HEAD [CMD_MEASURE_IAQ] in
  ((elapsed < 1)%Q ->
   (exists tail, entries =
      (now w, EvTime) :: (now w, EvSleep 1) :: ((now w + 1)%Q, command) :: tail) /\
   (delay_before_write entries == 1)%Q /\
   ((0 <= elapsed)%Q -> (1 - elapsed <= delay_before_write entries)%Q)) /\
  (~ (elapsed < 1)%Q ->
   (exists tail, entries = (now w, EvTime) :: (now w, command) :: tail) /\
   (delay_before_write entries == 0)%Q).
Proof.
  intros elapsed entries command.
  destruct (get_measurement_log as_dict temp humi self w) as [tail Hlog].
  rewrite log_issued in Hlog. fold elapsed command in Hlog.
  split; intros Hel.
  - apply Qltb_lt in Hel. rewrite Hel, <- app_assoc in Hlog.
    apply entries_since_app in Hlog. fold entries in Hlog. cbn [app] in Hlog.
    assert (Hdelay : (delay_before_write entries == 1)%Q).
    { rewrite Hlog. cbn [delay_before_write]. unfold command. ring. }
    split; [exists tail; exact Hlog |].
    split; [exact Hdelay |].
    intros Hpos. rewrite Hdelay. lra.
  - apply Qltb_nlt in Hel. rewrite Hel, <- app_assoc in Hlog.
    apply entries_since_app in Hlog. fold entries in Hlog. cbn [app] in Hlog.
    split; [exists tail; exact Hlog |].
    rewrite Hlog. cbn [delay_before_write]. unfold command. reflexivity.
Qed.

Lemma get_measurement_spacing_witness :
  (delay_before_write
     (entries_since (advance (1 # 2) (world_after Bench.first_call))
        (world_after Bench.second_call)) == 1)%Q /\
  (delay_before_write
     (entries_since (Bench.bench 100 [Bench.good_reply; Bench.good_reply])
        (world_after Bench.first_call)) == 0)%Q.
Proof.
  split.
  - apply (get_measurement_spacing false 0 0 (self_after Bench.first_call)
             (advance (1 # 2) (world_after Bench.first_call))).
    vm_compute. reflexivity.
  - apply (get_measurement_spacing false 0 0 Bench.sensor
             (Bench.bench 100 [Bench.good_reply; Bench.good_reply])).
    vm_compute. discriminate.
Defined.

(** C3, counterexample.  A first measurement is started at t = 100 s: its
    command goes out at 100 and its reply is read at 101, where the
    timestamp is taken.  The caller idles half a second and measures
    again at 101.5.  The second call sleeps one second before its command
    write: not the half second missing since the timestamp, and not zero
    although 1.5 s have passed since the first command went out. *)
Lemma second_call_sleeps_one_second :
  ~ sleeps_remaining_time (self_after Bench.first_call)
      (advance (1 # 2) (world_after Bench.first_call)) Bench.second_call /\
  ~ spaced_from_issuance
      (advance (1 # 2) (world_after Bench.first_call)) Bench.second_call.
Proof.
  split.
  - intros [Hshort _].
    assert (Hlt : (now (advance (1 # 2) (world_after Bench.first_call)) -
                   tracker (self_after Bench.first_call) < 1)%Q)
      by (vm_compute; reflexivity).
    specialize (Hshort Hlt). vm_compute in Hshort. discriminate Hshort.
  - intros Hclaim.
    destruct (Hclaim 100%Q eq_refl) as [_ Hlong].
    assert (Hgt : (1 < now (advance (1 # 2) (world_after Bench.first_call)) - 100)%Q)
      by (vm_compute; reflexivity).
    specialize (Hlong Hgt). vm_compute in Hlong. discriminate Hlong.
Qed.

(** *** The timestamp of the session *)

(** A constructor that returns hands out an object stamped 0. *)
Lemma new_tracker (bus_no : Z) (w : world) (self : SGP30) (w' : world) :
  new bus_no w = (Ok self, w') -> tracker self = 0%Q.
Proof.
  unfold new, init_body, iaq_init, close, soft_reset, blank.
  destruct (bus_present w bus_no) eqn:Hbus;
    destruct (acks w I2C_ADDRESS) eqn:Hsensor;
    destruct (acks w CMD_HEAD) eqn:Hhead;
    unfold Drv.try_except, Drv.SMBus; drv_run Hbus;
    rewrite ?Hsensor; drv_run Hsensor; rewrite ?Hhead; drv_run Hhead;
    intros Hnew; inversion Hnew; reflexivity.
Qed.

Lemma now_asked (self : SGP30) (w : world) :
  now (asked self w) = (now (issued self w) + 1)%Q.
Proof. reflexivity. Qed.

(** C6, as the code has it.  The constructor sets the timestamp to 0.
    A call of [get_measurement] whose reply arrives writes the command,
    sleeps one second, reads the reply, and only then reads the clock and
    stores it in the timestamp; a call stopped by a bus error leaves the
    timestamp as it was. *)
Theorem tracker_set_after_reply :
  (forall bus_no w self w',
     new bus_no w = (Ok self, w') -> tracker self = 0%Q) /\
  (forall as_dict temp humi self w reply rest,
     acks w (address self) = true ->
     inbox w = reply :: rest ->
     let run := get_measurement as_dict temp humi self w in
     exists before t,
       entries_since w (world_after run) =
       before ++
       [(t, EvWriteBlock (address self) CMD_HEAD [CMD_MEASURE_IAQ]);
        (t, EvSleep 1);
        ((t + 1)%Q, EvReadBlock (address self) REG_BASE 6);
        ((t + 1)%Q, EvTime)] /\
       tracker (self_after run) = (t + 1)%Q) /\
  (forall as_dict temp humi self w,
     let run := get_measurement as_dict temp humi self w in
     result run = Raise OSError ->
     tracker (self_after run) = tracker self).
Proof.
  split; [exact new_tracker |]. split.
  - intros as_dict temp humi self w reply rest Hack Hin run. subst run.
    rewrite (get_measurement_reply _ _ _ _ _ _ _ Hack Hin).
    unfold self_after, world_after. cbn [fst snd tracker].
    rewrite now_asked.
    exists ((now w, EvTime) ::
            if Qltb (now w - tracker self) 1 then [(now w, EvSleep 1)] else []).
    exists (now (issued self w)). split; [| reflexivity].
    apply entries_since_app.
    change (log (record EvTime (pop_inbox (asked self w))))
      with (log (asked self w) ++ [(now (asked self w), EvTime)]).
    rewrite now_asked, log_asked, log_issued, <- !app_assoc.
    f_equal. unfold issued.
    destruct (Qltb (now w - tracker self) 1); reflexivity.
  - intros as_dict temp humi self w run. subst run.
    destruct (acks w (address self)) eqn:Hack.
    + destruct (inbox w) as [| reply rest] eqn:Hin.
      * rewrite (get_measurement_silent _ _ _ _ _ Hack Hin). reflexivity.
      * rewrite (get_measurement_reply _ _ _ _ _ _ _ Hack Hin).
        unfold result. cbn [fst]. intros Hraise.
        apply measurement_of_raises in Hraise. discriminate Hraise.
    + rewrite (get_measurement_nack _ _ _ _ _ Hack). reflexivity.
Qed.

Lemma tracker_set_after_reply_witness :
  (exists self w', new 1 (Bench.bench 100 []) = (Ok self, w') /\
                   tracker self = 0%Q) /\
  (exists before t,
     entries_since (Bench.bench 100 [Bench.good_reply; Bench.good_reply])
       (world_after Bench.first_call) =
     before ++
     [(t, EvWriteBlock I2C_ADDRESS CMD_HEAD [CMD_MEASURE_IAQ]);
      (t, EvSleep 1);
      ((t + 1)%Q, EvReadBlock I2C_ADDRESS REG_BASE 6);
      ((t + 1)%Q, EvTime)] /\
     tracker (self_after Bench.first_call) = (t + 1)%Q) /\
  tracker (self_after Bench.lost_call) = tracker Bench.sensor.
Proof.
  destruct tracker_set_after_reply as (Hnew & Hreply & Herror).
  split; [| split].
  - destruct (new 1 (Bench.bench 100 [])) as [[self | e] w'] eqn:Hrun;
      [| vm_compute in Hrun; discriminate Hrun].
    exists self, w'. split; [reflexivity |].
    exact (Hnew 1 (Bench.bench 100 []) self w' Hrun).
  - exact (Hreply false 0%Q 0%Q Bench.sensor
             (Bench.bench 100 [Bench.good_reply; Bench.good_reply])
             Bench.good_reply [Bench.good_reply] eq_refl eq_refl).
  - exact (Herror false 0%Q 0%Q Bench.sensor (Bench.bench 100 []) eq_refl).
Defined.

(** C6, counterexample.  In the measurement started at t = 100 s the call
    logged right after the command write is the one-second sleep, not a
    reading of the clock, and the timestamp ends at 101 while the command
    went out at 100.  In the measurement whose reply never comes the
    command goes out as well and the timestamp stays 0. *)
Lemma timestamp_not_taken_at_issuance :
  (~ stamped_at_issuance (Bench.bench 100 [Bench.good_reply; Bench.good_reply])
       Bench.first_call /\
   next_after_measure (log (world_after Bench.first_call)) = Some (EvSleep 1) /\
   last_issued (log (world_after Bench.first_call)) = Some 100%Q /\
   (tracker (self_after Bench.first_call) == 101)%Q) /\
  (~ stamped_at_issuance (Bench.bench 100 []) Bench.lost_call /\
   result Bench.lost_call = Raise OSError /\
   last_issued (log (world_after Bench.lost_call)) = Some 100%Q /\
   (tracker (self_after Bench.lost_call) == 0)%Q).
Proof.
  split; (split; [intros [Hnext _]; vm_compute in Hnext; discriminate Hnext |]);
    repeat split; vm_compute; reflexivity.
Qed.

(** *** Arguments not read, commands not sent *)

Lemma forallb_map_app {A B} (f : A -> B) (p : B -> bool) (l1 l2 : list A) :
  forallb p (map f (l1 ++ l2)) = forallb p (map f l1) && forallb p (map f l2).
Proof. rewrite map_app. apply forallb_app. Qed.

(** What the humidity compensation puts on the wire is what
    [is_humidity_command] recognises. *)
Lemma set_abs_humidity_compensation_command
    (calc : Q -> Q -> list Z) (temp humi : Q) (self : SGP30) (w : world)
    (h l : Z) :
  calc temp humi = [h; l] ->
  exists data,
    entries_since w
      (world_after (set_abs_humidity_compensation calc temp humi self w)) =
    (now w, EvWriteBlock (address self) CMD_HEAD data) ::
    (if acks w (address self) then [(now w, EvSleep (5 # 100))] else []) /\
    is_humidity_command (EvWriteBlock (address self) CMD_HEAD data) = true.
Proof.
  intros Hcalc. unfold set_abs_humidity_compensation. rewrite Hcalc.
  rewrite crc_calc_two. eexists. split.
  - apply entries_since_app.
    destruct (acks w (address self)) eqn:Hack; drv_run Hack; log_shape;
      reflexivity.
  - reflexivity.
Qed.

(** C9. [get_measurement] does not read [temp] and [humi]: two calls that
    differ in them only, on the same object and the same world, return
    the same values, leave the same object and make the same calls on the
    bus; and none of these calls is a "Set absolute humidity" command. *)
Theorem get_measurement_ignores_temp_humi (as_dict : bool)
    (temp humi temp' humi' : Q) (self : SGP30) (w : world) :
  get_measurement as_dict temp humi self w =
  get_measurement as_dict temp' humi' self w /\
  forallb (fun e => negb (is_humidity_command e))
    (map snd (entries_since w
                (world_after (get_measurement as_dict temp humi self w))))
  = true.
Proof.
  split; [reflexivity |].
  destruct (get_measurement_log as_dict temp humi self w) as [tail Hlog].
  assert (Htail : forallb (fun e => negb (is_humidity_command e))
                    (map snd tail) = true).
  { revert Hlog.
    destruct (acks w (address self)) eqn:Hack.
    - destruct (inbox w) as [| reply rest] eqn:Hin.
      + rewrite (get_measurement_silent _ _ _ _ _ Hack Hin).
        unfold world_after. cbn [snd]. rewrite log_asked.
        intros Hlog. apply app_inv_head in Hlog. subst tail. reflexivity.
      + rewrite (get_measurement_reply _ _ _ _ _ _ _ Hack Hin).
        unfold world_after. cbn [snd].
        change (log (record EvTime (pop_inbox (asked self w))))
          with (log (asked self w) ++ [(now (asked self w), EvTime)]).
        rewrite log_asked, <- app_assoc.
        intros Hlog. apply app_inv_head in Hlog. subst tail. reflexivity.
    - rewrite (get_measurement_nack _ _ _ _ _ Hack).
      unfold world_after. cbn [snd].
      rewrite <- (app_nil_r (log (issued self w))) at 1.
      intros Hlog. apply app_inv_head in Hlog. subst tail. reflexivity. }
  rewrite log_issued, <- app_assoc in Hlog.
  apply entries_since_app in Hlog. rewrite Hlog.
  change ((now w, EvTime) :: ?l ++ tail) with (((now w, EvTime) :: l) ++ tail).
  rewrite forallb_map_app, Htail, andb_true_r.
  destruct (Qltb (now w - tracker self) 1); reflexivity.
Qed.

(** *** Identification queries *)

Section Frames.

Variable addr : Z.

Lemma frames_ret {A} (a : A) : frames addr (Drv.ret a) (fun x => x = a).
Proof.
  intros self w _. split; [reflexivity |]. split.
  - intros x Hx. inversion Hx. reflexivity.
  - exists []. split; [symmetry; apply app_nil_r | reflexivity].
Qed.

Lemma frames_lift {A} (r : outcome A) :
  frames addr (Drv.lift r) (fun x => r = Ok x).
Proof.
  intros self w _. split; [reflexivity |]. split.
  - intros x Hx. exact Hx.
  - exists []. split; [symmetry; apply app_nil_r | reflexivity].
Qed.

Lemma frames_get_address : frames addr Drv.get_address (fun a => a = addr).
Proof.
  intros self w Haddr. split; [reflexivity |]. split.
  - intros a Ha. inversion Ha. exact Haddr.
  - exists []. split; [symmetry; apply app_nil_r | reflexivity].
Qed.

Lemma frames_sleep (secs : Q) : frames addr (Drv.sleep secs) (fun _ => True).
Proof.
  intros self w _. split; [reflexivity |]. split; [trivial |].
  exists [(now w, EvSleep secs)]. split; reflexivity.
Qed.

Lemma frames_write (reg : Z) (data : list Z) :
  is_identification_call addr (EvWriteBlock addr reg data) = true ->
  frames addr (Drv.write_i2c_block_data addr reg data) (fun _ => True).
Proof.
  intros Hid self w _. split; [| split; [trivial |]].
  - drv_unfold. destruct (acks w addr); reflexivity.
  - exists [(now w, EvWriteBlock addr reg data)]. split.
    + drv_unfold. destruct (acks w addr); reflexivity.
    + cbn [map snd forallb]. rewrite Hid. reflexivity.
Qed.

Lemma frames_read (len : Z) :
  frames addr (Drv.read_i2c_block_data addr REG_BASE len) (fun _ => True).
Proof.
  intros self w _. split; [| split; [trivial |]].
  - drv_unfold. cbn [inbox record].
    destruct (acks w addr), (inbox w); reflexivity.
  - exists [(now w, EvReadBlock addr REG_BASE len)]. split.
    + drv_unfold. cbn [inbox record].
      destruct (acks w addr), (inbox w); reflexivity.
    + cbn [map snd forallb is_identification_call].
      rewrite !Z.eqb_refl. reflexivity.
Qed.

Lemma frames_bind {A B} (m : M A) (k : A -> M B)
    (mid : A -> Prop) (post : B -> Prop) :
  frames addr m mid ->
  (forall a, mid a -> frames addr (k a) post) ->
  frames addr (Drv.bind m k) post.
Proof.
  intros Hm Hk self w Haddr.
  destruct (Hm self w Haddr) as (Hself & Hmid & entries & Hlog & Hall).
  unfold Drv.bind, self_after, result, world_after in *.
  destruct (m self w) as [[[a | e] self1] w1]; cbn [fst snd] in *.
  - subst self1.
    destruct (Hk a (Hmid a eq_refl) self w1 Haddr)
      as (Hself' & Hpost & entries' & Hlog' & Hall').
    unfold self_after, result, world_after in *.
    split; [exact Hself' |]. split; [exact Hpost |].
    exists (entries ++ entries'). split.
    + rewrite Hlog', Hlog. symmetry. apply app_assoc.
    + rewrite forallb_map_app, Hall, Hall'. reflexivity.
  - split; [exact Hself |]. split; [intros b Hb; discriminate Hb |].
    exists entries. split; assumption.
Qed.

Lemma frames_weaken {A} (m : M A) (post : A -> Prop) :
  frames addr m post -> frames addr m (fun _ => True).
Proof.
  intros Hm self w Haddr.
  destruct (Hm self w Haddr) as (Hself & _ & Hlog).
  split; [exact Hself |]. split; [trivial | exact Hlog].
Qed.

(** One query: the command, the idle time, the read of the reply, and
    a decoding that touches nothing. *)
Lemma frames_query {A} (reg : Z) (data : list Z) (secs : Q) (len : Z)
    (decode : list Z -> M A) :
  is_identification_call addr (EvWriteBlock addr reg data) = true ->
  (forall reply, frames addr (decode reply) (fun _ => True)) ->
  frames addr
    (Drv.bind Drv.get_address (fun a =>
       Drv.bind (Drv.write_i2c_block_data a reg data) (fun _ =>
         Drv.bind (Drv.sleep secs) (fun _ =>
           Drv.bind (Drv.read_i2c_block_data a REG_BASE len) decode))))
    (fun _ => True).
Proof.
  intros Hid Hdecode.
  eapply frames_bind; [apply frames_get_address |].
  intros a ->.
  eapply frames_bind; [apply (frames_write _ _ Hid) |]. intros _ _.
  eapply frames_bind; [apply frames_sleep |]. intros _ _.
  eapply frames_bind; [apply frames_read |]. intros reply _.
  apply Hdecode.
Qed.

Lemma frames_get_serial_id : frames addr get_serial_id (fun _ => True).
Proof.
  unfold get_serial_id. apply frames_query.
  - cbn. rewrite Z.eqb_refl. reflexivity.
  - intros reply.
    eapply frames_bind; [apply frames_lift |]. intros v _.
    eapply frames_weaken. apply frames_ret.
Qed.

Lemma frames_get_product_type : frames addr get_product_type (fun _ => True).
Proof.
  unfold get_product_type. apply frames_query.
  - cbn. rewrite Z.eqb_refl. reflexivity.
  - intros reply.
    eapply frames_bind; [apply frames_lift |]. intros data _.
    destruct (Z.shiftr (Z.land data 240) 4 =? 0);
      eapply frames_weaken; apply frames_ret.
Qed.

Lemma frames_get_product_version :
  frames addr get_product_version (fun _ => True).
Proof.
  unfold get_product_version. apply frames_query.
  - cbn. rewrite Z.eqb_refl. reflexivity.
  - intros reply.
    eapply frames_bind; [apply frames_lift |]. intros data _.
    eapply frames_weaken. apply frames_ret.
Qed.

Lemma frames_get_sensor_info : frames addr get_sensor_info (fun _ => True).
Proof.
  unfold get_sensor_info.
  eapply frames_bind; [apply frames_get_serial_id |]. intros serial _.
  eapply frames_bind; [apply frames_get_product_type |]. intros ty _.
  eapply frames_bind; [apply frames_get_product_version |]. intros ver _.
  eapply frames_weaken. apply frames_ret.
Qed.

End Frames.

(** An identification call is not a measurement command. *)
Lemma identification_not_measure (addr : Z) (e : event) :
  is_identification_call addr e = true -> is_measure_command e = false.
Proof.
  destruct e as [| | a reg data | | | | | | |]; try reflexivity.
  cbn [is_identification_call is_measure_command].
  destruct data as [| x [| y data]]; cbn [Zlist_eqb];
    rewrite ?andb_false_r, ?orb_false_r; try discriminate; try reflexivity.
  rewrite !andb_true_r.
  unfold CMD_MEASURE_IAQ, CMD_GET_FEATURE_SET, CMD_HEAD.
  destruct (Z.eqb_spec x 8) as [-> | _]; [| rewrite andb_false_r; reflexivity].
  cbn. rewrite !andb_false_r. discriminate.
Qed.

(** The three queries of [get_sensor_info] on the bench: the serial-ID
    command, then the feature-set command twice, each followed by its
    idle time and the read of its reply. *)
Example get_sensor_info_on_bench :
  let run :=
    get_sensor_info Bench.sensor
      (Bench.bench 0 [Bench.serial_reply; Bench.feature_reply;
                      Bench.feature_reply]) in
  map snd (log (world_after run)) =
  [EvWriteBlock 0x58 0x36 [0x82]; EvSleep T_IDLE; EvReadBlock 0x58 0 9;
   EvWriteBlock 0x58 0x20 [0x2F]; EvSleep (5 # 100); EvReadBlock 0x58 0 3;
   EvWriteBlock 0x58 0x20 [0x2F]; EvSleep (5 # 100); EvReadBlock 0x58 0 3] /\
  Models.model (match result run with
                | Ok info => info
                | Raise _ => Models.mkSensorInfo "" None None None
                end) = Some "SGP30"%string /\
  Models.version (match result run with
                  | Ok info => info
                  | Raise _ => Models.mkSensorInfo "" None None None
                  end) = Some "2.5"%string.
Proof. vm_compute. repeat split. Qed.

(** C8. [get_sensor_info] leaves the timestamp of the session as it found
    it, whatever the object and the world; every call it makes is part of
    an identification query (serial-ID command, feature-set command, idle
    time, read of a reply) on the sensor's address, and none is a
    measurement command. *)
Theorem get_sensor_info_keeps_tracker (self : SGP30) (w : world) :
  let run := get_sensor_info self w in
  tracker (self_after run) = tracker self /\
  forallb (is_identification_call (address self))
    (map snd (entries_since w (world_after run))) = true /\
  forallb (fun e => negb (is_measure_command e))
    (map snd (entries_since w (world_after run))) = true.
Proof.
  intros run. subst run.
  destruct (frames_get_sensor_info (address self) self w eq_refl)
    as (Hself & _ & entries & Hlog & Hall).
  apply entries_since_app in Hlog. rewrite Hlog, Hself.
  split; [reflexivity |]. split; [exact Hall |].
  clear Hlog. induction entries as [| [t e] entries IH].
  - reflexivity.
  - cbn [map snd forallb] in *.
    apply andb_true_iff in Hall. destruct Hall as [He Hrest].
    rewrite (identification_not_measure _ _ He), (IH Hrest). reflexivity.
Qed.

(** ** Soft reset and close *)

(** C7.  [soft_reset] hands the opcode 0x06 to [write_byte] with
    [CMD_HEAD] as the bus address: the byte goes to address 0x20, not to
    the general-call address 0x00.  [close] prints, resets, then closes
    the handle, in that order, and when nothing acknowledges at 0x20 the
    reset raises [OSError] and the handle is never closed; on the bench,
    where the sensor is alone on the bus, [close] ends that way. *)
Theorem soft_reset_addresses_command_header :
  (forall self w,
     entries_since w (world_after (soft_reset self w)) =
     [(now w, EvWriteByte CMD_HEAD CMD_SOFT_RESET)]) /\
  CMD_HEAD = 0x20 /\ CMD_SOFT_RESET = 0x06 /\
  CMD_HEAD <> GENERAL_CALL_ADDRESS /\
  (forall self w,
     map snd (entries_since w (world_after (close self w))) =
     EvPrint "Closing I2C bus" :: EvWriteByte CMD_HEAD CMD_SOFT_RESET ::
     (if acks w CMD_HEAD then [EvBusClose] else []) /\
     result (close self w) =
     (if acks w CMD_HEAD then Ok tt else Raise OSError) /\
     opened (world_after (close self w)) =
     (if acks w CMD_HEAD then false else opened w)) /\
  (result (close Bench.sensor (Bench.bench 0 [])) = Raise OSError /\
   opened (world_after (close Bench.sensor (Bench.bench 0 []))) = true).
Proof.
  split; [| split; [reflexivity | split; [reflexivity | split;
    [discriminate | split; [| split; reflexivity]]]]].
  - intros self w. apply entries_since_app.
    unfold soft_reset. drv_unfold.
    destruct (acks w CMD_HEAD); reflexivity.
  - intros self w. unfold close, soft_reset.
    destruct (acks w CMD_HEAD) eqn:Hack.
    + split; [| split].
      * rewrite (entries_since_app w _
                   [(now w, EvPrint "Closing I2C bus");
                    (now w, EvWriteByte CMD_HEAD CMD_SOFT_RESET);
                    (now w, EvBusClose)]); [reflexivity |].
        drv_run Hack. log_shape. reflexivity.
      * drv_run Hack. reflexivity.
      * drv_run Hack. reflexivity.
    + split; [| split].
      * rewrite (entries_since_app w _
                   [(now w, EvPrint "Closing I2C bus");
                    (now w, EvWriteByte CMD_HEAD CMD_SOFT_RESET)]);
          [reflexivity |].
        drv_run Hack. log_shape. reflexivity.
      * drv_run Hack. reflexivity.
      * drv_run Hack. reflexivity.
Qed.

(** ** Serial number *)

(** The fuel of [hex_upper] is enough: more of it gives the same digits. *)
Lemma hex_loop_enough (fuel : nat) :
  forall (n : Z) (acc : string) (extra : nat),
    0 <= n < 16 ^ Z.of_nat (S fuel) ->
    hex_loop (S fuel + extra) n acc = hex_loop (S fuel) n acc.
Proof.
  induction fuel as [| fuel IH]; intros n acc extra Hn.
  - cbn [hex_loop Nat.add].
    replace (n / 16) with 0 by (symmetry; apply Z.div_small; lia).
    reflexivity.
  - change (S (S fuel) + extra)%nat with (S (S fuel + extra)).
    cbn [hex_loop].
    destruct (n / 16 =? 0); [reflexivity |].
    apply IH.
    rewrite Nat2Z.inj_succ, Z.pow_succ_r in Hn by lia.
    split; [apply Z.div_pos; lia | apply Z.div_lt_upper_bound; lia].
Qed.

Lemma hex_upper_fuel (n : Z) (extra : nat) :
  0 <= n ->
  hex_loop (S (Z.to_nat (Z.log2 n)) + extra) n "" = hex_upper n.
Proof.
  intros Hn. unfold hex_upper. apply hex_loop_enough.
  rewrite Nat2Z.inj_succ, Z2Nat.id by apply Z.log2_nonneg.
  split; [exact Hn |].
  destruct (Z.eq_dec n 0) as [-> | Hne]; [reflexivity |].
  apply Z.lt_le_trans with (2 ^ Z.succ (Z.log2 n)).
  - apply Z.log2_spec. lia.
  - apply Z.pow_le_mono_l. lia.
Qed.

(** What [get_serial_id] returns when the nine bytes arrive. *)
Lemma get_serial_id_reply (self : SGP30) (w : world)
    (d0 d1 c0 d3 d4 c1 d6 d7 c2 : Z) (rest : list (list Z)) :
  acks w (address self) = true ->
  inbox w = [d0; d1; c0; d3; d4; c1; d6; d7; c2] :: rest ->
  result (get_serial_id self w) =
  Ok (format_06X
        (Z.lor (Z.lor (Z.lor (Z.lor (Z.lor
           (Z.shiftl d0 40) (Z.shiftl d1 32)) (Z.shiftl d3 24))
           (Z.shiftl d4 16)) (Z.shiftl d6 8)) d7)).
Proof.
  intros Hack Hin. unfold get_serial_id.
  drv_run Hack. rewrite Hin. reflexivity.
Qed.

(** A serial number that fills its 48 bits comes out in 12 digits. *)
Example get_serial_id_full_width :
  result (get_serial_id Bench.sensor
            (Bench.bench 0 [[0xAB; 0xCD; 0x00; 0xEF; 0x01; 0x00;
                             0x23; 0x45; 0x00]])) =
  Ok "ABCDEF012345"%string.
Proof. reflexivity. Qed.

(** C4.  The serial number is formatted with ["{:06X}"], which pads to
    six digits.  The reply 00 00 81 | 01 A2 EB | B3 C4 BE, the serial
    number 0x000001A2B3C4 with the checksums of its three words, comes
    out as the seven characters "1A2B3C4"; a reply of zeros comes out as
    "000000". *)
Theorem get_serial_id_pads_to_six :
  result (get_serial_id Bench.sensor (Bench.bench 0 [Bench.serial_reply])) =
  Ok "1A2B3C4"%string /\
  result (get_serial_id Bench.sensor
            (Bench.bench 0 [[0; 0; 0x81; 0; 0; 0x81; 0; 0; 0x81]])) =
  Ok "000000"%string /\
  crc_check [0x00; 0x00] 0x81 = Ok true /\
  crc_check [0x01; 0xA2] 0xEB = Ok true /\
  crc_check [0xB3; 0xC4] 0xBE = Ok true.
Proof. repeat split. Qed.

(** * Further properties of the driver *)

(** ** The checksum as an error-detecting code *)

(** Identities of [Z.lxor] alone, bit by bit. *)
Ltac lxor_bits :=
  apply Z.bits_inj'; intros ? _; repeat rewrite Z.lxor_spec;
  repeat match goal with
         | |- context [Z.testbit ?x ?n] => destruct (Z.testbit x n)
         end;
  reflexivity.

Lemma crc_bit_lxor (a b : Z) :
  crc_bit (Z.lxor a b) = Z.lxor (crc_bit a) (crc_bit b).
Proof.
  unfold crc_bit. rewrite !high_bit_test, Z.lxor_spec, Z.shiftl_lxor.
  destruct (Z.testbit a 7), (Z.testbit b 7); cbn [xorb negb];
    generalize (Z.shiftl a 1), (Z.shiftl b 1); intros sa sb; lxor_bits.
Qed.

Lemma crc_rounds_lxor (n : nat) (a b : Z) :
  Nat.iter n crc_bit (Z.lxor a b) =
  Z.lxor (Nat.iter n crc_bit a) (Nat.iter n crc_bit b).
Proof.
  induction n as [| n IH].
  - reflexivity.
  - rewrite !Nat.iter_succ, IH. apply crc_bit_lxor.
Qed.

Lemma Ok_inj {A} (a b : A) : Ok a = Ok b -> a = b.
Proof. intros H. injection H as H. exact H. Qed.

(** XORing the data with an error pattern moves the checksum by the
    syndrome of the pattern, whatever the data. *)
Lemma crc_calc_lxor (d0 d1 e0 e1 c : Z) :
  crc_calc [d0; d1] = Ok c ->
  crc_calc [Z.lxor d0 e0; Z.lxor d1 e1] = Ok (Z.lxor c (syndrome e0 e1)).
Proof.
  rewrite (crc_calc_two d0 d1 []),
    (crc_calc_two (Z.lxor d0 e0) (Z.lxor d1 e1) []).
  intros Hc. apply Ok_inj in Hc. subst c.
  apply (f_equal (@Ok Z)).
  unfold syndrome. change 0xFF with 255.
  rewrite <- land_lxor_255. apply (f_equal (fun x => Z.land x 255)).
  rewrite <- crc_rounds_lxor. apply (f_equal (Nat.iter 8 crc_bit)).
  replace (Z.lxor 255 (Z.lxor d0 e0)) with (Z.lxor (Z.lxor 255 d0) e0)
    by lxor_bits.
  rewrite crc_rounds_lxor.
  generalize (Nat.iter 8 crc_bit (Z.lxor 255 d0)), (Nat.iter 8 crc_bit e0).
  intros x y. lxor_bits.
Qed.

Lemma weight_nonneg (b : Z) : 0 <= weight b.
Proof.
  unfold weight. cbn [seq fold_right].
  repeat match goal with
         | |- context [Z.b2z ?t] =>
             let H := fresh in
             assert (H : 0 <= Z.b2z t) by (destruct t; cbn; lia);
             generalize dependent (Z.b2z t); intros
         end.
  lia.
Qed.

(** A code word of the checksum, two data bytes and their syndrome, has
    at least four bits set unless it is zero: checked on the 65536 pairs. *)
Lemma syndrome_min_weight (e0 e1 : Z) :
  is_byte e0 -> is_byte e1 ->
  (e0 = 0 /\ e1 = 0) \/ 4 <= weight e0 + weight e1 + weight (syndrome e0 e1).
Proof.
  intros H0 H1.
  assert (Hall : forallb (fun x => forallb (fun y =>
                   ((x =? 0) && (y =? 0)) ||
                   (4 <=? weight x + weight y + weight (syndrome x y)))
                   all_bytes) all_bytes = true) by (vm_compute; reflexivity).
  rewrite forallb_forall in Hall.
  specialize (Hall e0 (all_bytes_complete e0 H0)).
  rewrite forallb_forall in Hall.
  specialize (Hall e1 (all_bytes_complete e1 H1)).
  apply orb_true_iff in Hall. destruct Hall as [Hz | Hw].
  - left. apply andb_true_iff in Hz. destruct Hz as [Hx Hy].
    split; apply Z.eqb_eq; assumption.
  - right. apply Z.leb_le. exact Hw.
Qed.

(** X1. Error detection.  Take two data bytes and the checksum
    [crc_calc] gives them, and flip one, two or three bits anywhere in
    the three bytes: [crc_check] rejects the result. *)
Theorem crc_check_detects_three_bit_errors (d0 d1 c e0 e1 ec : Z) :
  crc_calc [d0; d1] = Ok c ->
  is_byte e0 -> is_byte e1 ->
  0 < weight e0 + weight e1 + weight ec <= 3 ->
  crc_check [Z.lxor d0 e0; Z.lxor d1 e1] (Z.lxor c ec) = Ok false.
Proof.
  intros Hc H0 H1 Hw.
  unfold crc_check. rewrite (crc_calc_lxor d0 d1 e0 e1 c Hc).
  cbn [Exc.bind]. f_equal. apply Z.eqb_neq. intros Heq.
  assert (Hsyn : syndrome e0 e1 = ec).
  { replace (syndrome e0 e1) with (Z.lxor c (Z.lxor c (syndrome e0 e1)))
      by lxor_bits.
    rewrite Heq. lxor_bits. }
  destruct (syndrome_min_weight e0 e1 H0 H1) as [[-> ->] | Hmin].
  - subst ec. vm_compute in Hw. destruct Hw as [Hw _]. discriminate Hw.
  - rewrite Hsyn in Hmin. lia.
Qed.

Lemma crc_check_detects_three_bit_errors_witness :
  crc_check [Z.lxor 0xBE 0x01; Z.lxor 0xEF 0x80] (Z.lxor 0x92 0x10) = Ok false.
Proof.
  apply (crc_check_detects_three_bit_errors 0xBE 0xEF 0x92 0x01 0x80 0x10).
  - reflexivity.
  - unfold is_byte. lia.
  - unfold is_byte. lia.
  - vm_compute. split; [reflexivity | discriminate].
Defined.

(** X2. [crc_calc] reads the low eight bits of its first two elements
    and nothing else of them: integers that agree modulo 256, negative or
    large, get the same checksum. *)
Theorem crc_calc_low_bits (d0 d1 : Z) (rest : list Z) :
  crc_calc (d0 :: d1 :: rest) = crc_calc [d0 mod 256; d1 mod 256].
Proof.
  rewrite (crc_calc_two d0 d1 rest),
    (crc_calc_two (d0 mod 256) (d1 mod 256) []).
  apply (f_equal (@Ok Z)). change 0xFF with 255.
  rewrite !crc_rounds_masked, !land_lxor_255, !crc_rounds_masked,
    !land_lxor_255.
  rewrite !land_255_mod, !Zmod_mod. reflexivity.
Qed.

(** ** Words and serial numbers as numbers *)

Lemma land_high_low (q b k : Z) :
  0 <= k -> 0 <= b < 2 ^ k -> Z.land (q * 2 ^ k) b = 0.
Proof.
  intros Hk Hb. apply Z.bits_inj'. intros n Hn.
  rewrite Z.land_spec, Z.bits_0.
  destruct (Z.lt_ge_cases n k) as [Hlow | Hhigh].
  - rewrite Z.mul_pow2_bits_low by lia. reflexivity.
  - replace (Z.testbit b n) with false; [apply andb_false_r |].
    symmetry. destruct (Z.eq_dec b 0) as [-> | Hne]; [apply Z.bits_0 |].
    apply Z.bits_above_log2; [lia |].
    apply Z.lt_le_trans with k; [| exact Hhigh].
    apply Z.log2_lt_pow2; lia.
Qed.

(** ORing below a multiple of a power of two is adding. *)
Lemma lor_concat (a q b k : Z) :
  0 <= k -> 0 <= b < 2 ^ k -> a = q * 2 ^ k -> Z.lor a b = a + b.
Proof.
  intros Hk Hb ->.
  pose proof (Z.add_lor_land (q * 2 ^ k) b) as Hadd.
  rewrite (land_high_low q b k Hk Hb) in Hadd. lia.
Qed.

Lemma word_sum (hi lo : Z) :
  is_byte lo -> Z.lor (Z.shiftl hi 8) lo = hi * 256 + lo.
Proof.
  intros Hlo. rewrite Z.shiftl_mul_pow2 by lia.
  apply (lor_concat _ hi lo 8); [lia | exact Hlo | reflexivity].
Qed.

Lemma serial_sum (d0 d1 d3 d4 d6 d7 : Z) :
  is_byte d1 -> is_byte d3 -> is_byte d4 -> is_byte d6 -> is_byte d7 ->
  Z.lor (Z.lor (Z.lor (Z.lor (Z.lor
    (Z.shiftl d0 40) (Z.shiftl d1 32)) (Z.shiftl d3 24))
    (Z.shiftl d4 16)) (Z.shiftl d6 8)) d7 =
  d0 * 2 ^ 40 + d1 * 2 ^ 32 + d3 * 2 ^ 24 + d4 * 2 ^ 16 + d6 * 2 ^ 8 + d7.
Proof.
  unfold is_byte. intros H1 H3 H4 H6 H7.
  rewrite !Z.shiftl_mul_pow2 by lia.
  rewrite (lor_concat (d0 * 2 ^ 40) d0 (d1 * 2 ^ 32) 40) by (try reflexivity; lia).
  rewrite (lor_concat _ (d0 * 2 ^ 8 + d1) (d3 * 2 ^ 24) 32)
    by (try lia; change (2 ^ 40) with (2 ^ 8 * 2 ^ 32); ring).
  rewrite (lor_concat _ (d0 * 2 ^ 16 + d1 * 2 ^ 8 + d3) (d4 * 2 ^ 16) 24)
    by (try lia; change (2 ^ 40) with (2 ^ 16 * 2 ^ 24);
        change (2 ^ 32) with (2 ^ 8 * 2 ^ 24); ring).
  rewrite (lor_concat _ (d0 * 2 ^ 24 + d1 * 2 ^ 16 + d3 * 2 ^ 8 + d4)
             (d6 * 2 ^ 8) 16)
    by (try lia; change (2 ^ 40) with (2 ^ 24 * 2 ^ 16);
        change (2 ^ 32) with (2 ^ 16 * 2 ^ 16);
        change (2 ^ 24) with (2 ^ 8 * 2 ^ 16); ring).
  rewrite (lor_concat _ (d0 * 2 ^ 32 + d1 * 2 ^ 24 + d3 * 2 ^ 16 + d4 * 2 ^ 8 + d6)
             d7 8)
    by (try lia; change (2 ^ 40) with (2 ^ 32 * 2 ^ 8);
        change (2 ^ 32) with (2 ^ 24 * 2 ^ 8);
        change (2 ^ 24) with (2 ^ 16 * 2 ^ 8);
        change (2 ^ 16) with (2 ^ 8 * 2 ^ 8); ring).
  reflexivity.
Qed.

(** ** The serial number as a string *)

Lemma string_length_append (s1 s2 : string) :
  String.length (s1 ++ s2) = (String.length s1 + String.length s2)%nat.
Proof.
  induction s1 as [| c s1 IH]; cbn [append String.length].
  - reflexivity.
  - rewrite IH. reflexivity.
Qed.

Lemma zeros_length (k : nat) : String.length (zeros k) = k.
Proof.
  induction k as [| k IH]; cbn [zeros String.length]; congruence.
Qed.

Lemma zfill_length (width : nat) (s : string) :
  String.length (zfill width s) = Nat.max width (String.length s).
Proof.
  unfold zfill. rewrite string_length_append, zeros_length. lia.
Qed.

Lemma hex_digit_value_digit (d : Z) :
  0 <= d < 16 -> hex_digit_value (hex_digit d) = Some d.
Proof.
  intros Hd.
  assert (Hin : In d (map Z.of_nat (seq 0 16))).
  { rewrite <- (Z2Nat.id d) by lia. apply in_map, in_seq. lia. }
  cbn in Hin.
  repeat (destruct Hin as [<- | Hin]; [reflexivity |]).
  contradiction.
Qed.

(** Reading back the digits that [hex_loop] pushes gives the number. *)
Lemma hex_loop_value (fuel : nat) :
  forall (n : Z) (acc : string),
    0 <= n < 16 ^ Z.of_nat fuel ->
    hex_value_from 0 (hex_loop fuel n acc) = hex_value_from n acc.
Proof.
  induction fuel as [| fuel IH]; intros n acc Hn.
  - cbn in Hn. replace n with 0 by lia. reflexivity.
  - rewrite Nat2Z.inj_succ, Z.pow_succ_r in Hn by lia.
    pose proof (Z.mod_pos_bound n 16 ltac:(lia)) as Hmod.
    pose proof (Z.div_mod n 16 ltac:(lia)) as Hdiv.
    cbn [hex_loop].
    destruct (Z.eqb_spec (n / 16) 0) as [Hz | Hnz].
    + cbn [hex_value_from]. rewrite hex_digit_value_digit by exact Hmod.
      f_equal. lia.
    + rewrite IH.
      * cbn [hex_value_from]. rewrite hex_digit_value_digit by exact Hmod.
        f_equal. lia.
      * split; [apply Z.div_pos; lia | apply Z.div_lt_upper_bound; lia].
Qed.

Lemma pow16_fuel (n : Z) :
  0 <= n -> n < 16 ^ Z.of_nat (S (Z.to_nat (Z.log2 n))).
Proof.
  intros Hn.
  rewrite Nat2Z.inj_succ, Z2Nat.id by apply Z.log2_nonneg.
  destruct (Z.eq_dec n 0) as [-> | Hne]; [reflexivity |].
  apply Z.lt_le_trans with (2 ^ Z.succ (Z.log2 n)).
  - apply Z.log2_spec. lia.
  - apply Z.pow_le_mono_l. lia.
Qed.

Lemma hex_upper_value (n : Z) :
  0 <= n -> hex_value_from 0 (hex_upper n) = Some n.
Proof.
  intros Hn. unfold hex_upper.
  rewrite hex_loop_value by (split; [exact Hn | apply pow16_fuel; exact Hn]).
  reflexivity.
Qed.

Lemma hex_value_zeros (k : nat) (s : string) :
  hex_value_from 0 (zeros k ++ s) = hex_value_from 0 s.
Proof.
  induction k as [| k IH]; cbn [zeros append].
  - reflexivity.
  - change (hex_value_from 0 (String "0" (zeros k ++ s)))
      with (hex_value_from 0 (zeros k ++ s)).
    exact IH.
Qed.

Lemma format_06X_value (n : Z) :
  0 <= n -> hex_value_from 0 (format_06X n) = Some n.
Proof.
  intros Hn. unfold format_06X.
  destruct (Z.ltb_spec n 0) as [Hneg | _]; [lia |].
  unfold zfill. rewrite hex_value_zeros. apply hex_upper_value. exact Hn.
Qed.

(** With [k + 1] digits of fuel, [hex_upper] is [hex_loop]. *)
Lemma hex_upper_with_fuel (k : nat) (n : Z) :
  0 <= n < 16 ^ Z.of_nat (S k) -> hex_upper n = hex_loop (S k) n "".
Proof.
  intros Hn. unfold hex_upper.
  destruct (le_lt_dec k (Z.to_nat (Z.log2 n))) as [Hle | Hlt].
  - replace (S (Z.to_nat (Z.log2 n)))
      with (S k + (Z.to_nat (Z.log2 n) - k))%nat by lia.
    apply hex_loop_enough. exact Hn.
  - replace (S k) with (S (Z.to_nat (Z.log2 n)) + (k - Z.to_nat (Z.log2 n)))%nat
      by lia.
    symmetry. apply hex_loop_enough.
    split; [lia | apply pow16_fuel; lia].
Qed.

Lemma hex_loop_length_le (k : nat) :
  forall (n : Z) (acc : string),
    0 <= n < 16 ^ Z.of_nat (S k) ->
    (String.length (hex_loop (S k) n acc) <= S k + String.length acc)%nat.
Proof.
  induction k as [| k IH]; intros n acc Hn; cbn [hex_loop].
  - destruct (n / 16 =? 0); cbn [String.length]; lia.
  - destruct (Z.eqb_spec (n / 16) 0) as [Hz | Hnz]; [cbn [String.length]; lia |].
    rewrite Nat2Z.inj_succ, Z.pow_succ_r in Hn by lia.
    etransitivity.
    + apply IH. split; [apply Z.div_pos; lia | apply Z.div_lt_upper_bound; lia].
    + cbn [String.length]. lia.
Qed.

Lemma hex_loop_length (k : nat) :
  forall (n : Z) (acc : string),
    16 ^ Z.of_nat k <= n < 16 ^ Z.of_nat (S k) ->
    String.length (hex_loop (S k) n acc) = (S k + String.length acc)%nat.
Proof.
  induction k as [| k IH]; intros n acc Hn.
  - cbn [hex_loop]. change (16 ^ Z.of_nat 1) with 16 in Hn.
    replace (n / 16) with 0 by (symmetry; apply Z.div_small; lia).
    reflexivity.
  - rewrite !Nat2Z.inj_succ, !Z.pow_succ_r in Hn by lia.
    assert (Hpos : 0 < 16 ^ Z.of_nat k) by (apply Z.pow_pos_nonneg; lia).
    assert (Hq : 16 ^ Z.of_nat k <= n / 16 < 16 ^ Z.of_nat (S k)).
    { rewrite Nat2Z.inj_succ, Z.pow_succ_r by lia. split.
      - apply Z.div_le_lower_bound; lia.
      - apply Z.div_lt_upper_bound; lia. }
    change (hex_loop (S (S k)) n acc)
      with (let acc' := String (hex_digit (n mod 16)) acc in
            if n / 16 =? 0 then acc' else hex_loop (S k) (n / 16) acc').
    cbv zeta. destruct (Z.eqb_spec (n / 16) 0) as [Hz | _]; [lia |].
    rewrite IH by exact Hq. cbn [String.length]. lia.
Qed.

(** X3. The serial number read back.  When the nine bytes of the reply
    arrive, the string [get_serial_id] returns is the hexadecimal writing
    of [d0*2^40 + d1*2^32 + d3*2^24 + d4*2^16 + d6*2^8 + d7]: reading its
    digits gives that number back, so two serial numbers never share a
    string. *)
Theorem get_serial_id_reads_back (self : SGP30) (w : world)
    (d0 d1 c0 d3 d4 c1 d6 d7 c2 : Z) (rest : list (list Z)) :
  acks w (address self) = true ->
  inbox w = [d0; d1; c0; d3; d4; c1; d6; d7; c2] :: rest ->
  is_byte d0 -> is_byte d1 -> is_byte d3 ->
  is_byte d4 -> is_byte d6 -> is_byte d7 ->
  exists s,
    result (get_serial_id self w) = Ok s /\
    hex_value_from 0 s =
    Some (d0 * 2 ^ 40 + d1 * 2 ^ 32 + d3 * 2 ^ 24 + d4 * 2 ^ 16 + d6 * 2 ^ 8 + d7).
Proof.
  intros Hack Hin H0 H1 H3 H4 H6 H7.
  eexists. split; [apply (get_serial_id_reply _ _ _ _ _ _ _ _ _ _ _ _ Hack Hin) |].
  rewrite serial_sum by assumption.
  apply format_06X_value. unfold is_byte in *. lia.
Qed.

Lemma get_serial_id_reads_back_witness :
  exists s,
    result (get_serial_id Bench.sensor (Bench.bench 0 [Bench.serial_reply]))
    = Ok s /\
    hex_value_from 0 s =
    Some (0x00 * 2 ^ 40 + 0x00 * 2 ^ 32 + 0x01 * 2 ^ 24 + 0xA2 * 2 ^ 16
          + 0xB3 * 2 ^ 8 + 0xC4).
Proof.
  apply (get_serial_id_reads_back Bench.sensor
           (Bench.bench 0 [Bench.serial_reply])
           0x00 0x00 0x81 0x01 0xA2 0xEB 0xB3 0xC4 0xBE []);
    try reflexivity; unfold is_byte; lia.
Defined.

(** X4. The length of the serial string.  It has twelve characters
    exactly when the first byte of the reply is 0x10 or more; below, it
    has between six and eleven. *)
Theorem get_serial_id_length (self : SGP30) (w : world)
    (d0 d1 c0 d3 d4 c1 d6 d7 c2 : Z) (rest : list (list Z)) :
  acks w (address self) = true ->
  inbox w = [d0; d1; c0; d3; d4; c1; d6; d7; c2] :: rest ->
  is_byte d0 -> is_byte d1 -> is_byte d3 ->
  is_byte d4 -> is_byte d6 -> is_byte d7 ->
  exists s,
    result (get_serial_id self w) = Ok s /\
    (16 <= d0 -> String.length s = 12%nat) /\
    (d0 < 16 -> (6 <= String.length s <= 11)%nat).
Proof.
  intros Hack Hin H0 H1 H3 H4 H6 H7.
  eexists. split; [apply (get_serial_id_reply _ _ _ _ _ _ _ _ _ _ _ _ Hack Hin) |].
  rewrite serial_sum by assumption.
  set (v := d0 * 2 ^ 40 + d1 * 2 ^ 32 + d3 * 2 ^ 24 + d4 * 2 ^ 16 + d6 * 2 ^ 8 + d7).
  assert (Hv : 0 <= v /\ d0 * 2 ^ 40 <= v < d0 * 2 ^ 40 + 2 ^ 40)
    by (unfold is_byte in *; subst v; lia).
  unfold format_06X. destruct (Z.ltb_spec v 0) as [Hneg | _]; [lia |].
  rewrite zfill_length. split; intros Hd0.
  - rewrite (hex_upper_with_fuel 11 v), (hex_loop_length 11 v).
    + reflexivity.
    + change (16 ^ Z.of_nat 11) with (16 * 2 ^ 40).
      change (16 ^ Z.of_nat 12) with (256 * 2 ^ 40).
      unfold is_byte in H0. lia.
    + change (16 ^ Z.of_nat 12) with (256 * 2 ^ 40).
      unfold is_byte in H0. lia.
  - assert (Hlen : (String.length (hex_upper v) <= 11)%nat).
    { rewrite (hex_upper_with_fuel 10 v).
      - pose proof (hex_loop_length_le 10 v "") as Hle.
        cbn [String.length] in Hle. rewrite Nat.add_0_r in Hle. apply Hle.
        change (16 ^ Z.of_nat 11) with (16 * 2 ^ 40). lia.
      - change (16 ^ Z.of_nat 11) with (16 * 2 ^ 40). lia. }
    lia.
Qed.

Lemma get_serial_id_length_witness :
  (exists s,
     result (get_serial_id Bench.sensor
               (Bench.bench 0 [[0xAB; 0xCD; 0x00; 0xEF; 0x01; 0x00;
                                0x23; 0x45; 0x00]])) = Ok s /\
     String.length s = 12%nat) /\
  (exists s,
     result (get_serial_id Bench.sensor (Bench.bench 0 [Bench.serial_reply]))
     = Ok s /\
     (6 <= String.length s <= 11)%nat).
Proof.
  split.
  - destruct (get_serial_id_length Bench.sensor
                (Bench.bench 0 [[0xAB; 0xCD; 0x00; 0xEF; 0x01; 0x00;
                                 0x23; 0x45; 0x00]])
                0xAB 0xCD 0x00 0xEF 0x01 0x00 0x23 0x45 0x00 []
                eq_refl eq_refl)
      as (s & Hs & Hfull & _); try (unfold is_byte; lia).
    exists s. split; [exact Hs | apply Hfull; lia].
  - destruct (get_serial_id_length Bench.sensor
                (Bench.bench 0 [Bench.serial_reply])
                0x00 0x00 0x81 0x01 0xA2 0xEB 0xB3 0xC4 0xBE []
                eq_refl eq_refl)
      as (s & Hs & _ & Hshort); try (unfold is_byte; lia).
    exists s. split; [exact Hs | apply Hshort; lia].
Defined.

(** ** Identification queries, reply by reply *)

Section Query.

Variables (A : Type) (reg : Z) (data : list Z) (secs : Q) (len : Z).
Variable decode : list Z -> M A.
Variables (self : SGP30) (w : world).

(** The shape shared by [get_serial_id], [get_product_type] and
    [get_product_version]. *)
Let query : M A :=
  Drv.bind Drv.get_address (fun a =>
    Drv.bind (Drv.write_i2c_block_data a reg data) (fun _ =>
      Drv.bind (Drv.sleep secs) (fun _ =>
        Drv.bind (Drv.read_i2c_block_data a REG_BASE len) decode))).

Lemma query_nack :
  acks w (address self) = false ->
  query self w =
  (Raise OSError, self, record (EvWriteBlock (address self) reg data) w).
Proof. intros Hack. unfold query. drv_run Hack. reflexivity. Qed.

Lemma query_silent :
  acks w (address self) = true -> inbox w = [] ->
  query self w =
  (Raise OSError, self,
   record (EvReadBlock (address self) REG_BASE len)
     (advance secs (record (EvSleep secs)
        (record (EvWriteBlock (address self) reg data) w)))).
Proof.
  intros Hack Hin. unfold query. drv_run Hack. rewrite Hin. reflexivity.
Qed.

Lemma query_reply (reply : list Z) (rest : list (list Z)) :
  acks w (address self) = true -> inbox w = reply :: rest ->
  query self w = decode reply self (queried (address self) reg data secs len w).
Proof.
  intros Hack Hin. unfold query. drv_run Hack. rewrite Hin. reflexivity.
Qed.

End Query.

Lemma version_fields (b : Z) :
  is_byte b ->
  Z.shiftr (Z.land b 0xE0) 5 = b / 32 /\ Z.land b 0x1F = b mod 32.
Proof.
  intros Hb. unfold is_byte in Hb. split.
  - rewrite Z.shiftr_land. change (Z.shiftr 224 5) with (Z.ones 3).
    rewrite Z.land_ones, Z.shiftr_div_pow2 by lia.
    change (2 ^ 5) with 32. change (2 ^ 3) with 8.
    apply Z.mod_small. split; [apply Z.div_pos; lia |].
    apply Z.div_lt_upper_bound; lia.
  - change 0x1F with (Z.ones 5). rewrite Z.land_ones by lia. reflexivity.
Qed.

Lemma type_field (b : Z) :
  is_byte b -> Z.shiftr (Z.land b 0xF0) 4 = b / 16.
Proof.
  intros Hb. unfold is_byte in Hb.
  rewrite Z.shiftr_land. change (Z.shiftr 240 4) with (Z.ones 4).
  rewrite Z.land_ones, Z.shiftr_div_pow2 by lia.
  change (2 ^ 4) with 16.
  apply Z.mod_small. split; [apply Z.div_pos; lia |].
  apply Z.div_lt_upper_bound; lia.
Qed.

(** X5. The firmware version.  From a reply whose second byte is [b],
    [get_product_version] returns "major.minor" in decimal where major is
    the top three bits of [b] and minor its low five bits: major is
    [b / 32], at most 7, minor is [b mod 32], at most 31, and the first
    byte and the checksum byte of the reply play no part. *)
Theorem get_product_version_fields (self : SGP30) (w : world)
    (b0 b : Z) (tail : list Z) (rest : list (list Z)) :
  acks w (address self) = true ->
  inbox w = (b0 :: b :: tail) :: rest ->
  is_byte b ->
  result (get_product_version self w) =
  Ok (str_int (b / 32) ++ "." ++ str_int (b mod 32))%string /\
  0 <= b / 32 <= 7 /\ 0 <= b mod 32 <= 31.
Proof.
  intros Hack Hin Hb.
  unfold get_product_version.
  rewrite (query_reply _ _ _ _ _ _ _ _ _ _ Hack Hin).
  cbn [Exc.index nth_error]. unfold Drv.bind, Drv.lift, Drv.ret, result.
  cbn [fst].
  destruct (version_fields b Hb) as [-> ->].
  unfold is_byte in Hb.
  split; [reflexivity |].
  pose proof (Z.mod_pos_bound b 32 ltac:(lia)).
  pose proof (Z.div_pos b 32 ltac:(lia) ltac:(lia)).
  assert (b / 32 < 8) by (apply Z.div_lt_upper_bound; lia).
  lia.
Qed.

Lemma get_product_version_fields_witness :
  result (get_product_version Bench.sensor
            (Bench.bench 0 [Bench.feature_reply])) = Ok "2.5"%string.
Proof.
  apply (get_product_version_fields Bench.sensor
           (Bench.bench 0 [Bench.feature_reply]) 0x00 0x45 [0x00] []
           eq_refl eq_refl).
  unfold is_byte. lia.
Defined.

(** X6. The product type.  From a reply whose first byte is [b],
    [get_product_type] returns "SGP30" when the high nibble of [b] is
    zero, that is when [b < 16], and [None] for every other byte. *)
Theorem get_product_type_nibble (self : SGP30) (w : world)
    (b : Z) (tail : list Z) (rest : list (list Z)) :
  acks w (address self) = true ->
  inbox w = (b :: tail) :: rest ->
  is_byte b ->
  result (get_product_type self w) =
  Ok (if b <? 16 then Some "SGP30"%string else None).
Proof.
  intros Hack Hin Hb.
  unfold get_product_type.
  rewrite (query_reply _ _ _ _ _ _ _ _ _ _ Hack Hin).
  cbn [Exc.index nth_error]. unfold Drv.bind, Drv.lift, result.
  rewrite (type_field b Hb). unfold is_byte in Hb.
  destruct (Z.ltb_spec b 16) as [Hlt | Hge].
  - rewrite Z.div_small by lia. reflexivity.
  - destruct (Z.eqb_spec (b / 16) 0) as [Hz | _]; [| reflexivity].
    pose proof (Z.div_le_lower_bound b 16 1 ltac:(lia) ltac:(lia)). lia.
Qed.

Lemma get_product_type_nibble_witness :
  result (get_product_type Bench.sensor (Bench.bench 0 [[0x0F; 0x22; 0x00]]))
  = Ok (Some "SGP30"%string) /\
  result (get_product_type Bench.sensor (Bench.bench 0 [[0x10; 0x22; 0x00]]))
  = Ok None.
Proof.
  split.
  - apply (get_product_type_nibble Bench.sensor
             (Bench.bench 0 [[0x0F; 0x22; 0x00]]) 0x0F [0x22; 0x00] []
             eq_refl eq_refl).
    unfold is_byte. lia.
  - apply (get_product_type_nibble Bench.sensor
             (Bench.bench 0 [[0x10; 0x22; 0x00]]) 0x10 [0x22; 0x00] []
             eq_refl eq_refl).
    unfold is_byte. lia.
Defined.

Lemma bind_ok {A B} (m : M A) (k : A -> M B) (self self' : SGP30)
    (w w' : world) (a : A) :
  m self w = (Ok a, self', w') -> Drv.bind m k self w = k a self' w'.
Proof. intros Hm. unfold Drv.bind. rewrite Hm. reflexivity. Qed.

Lemma bind_raise {A B} (m : M A) (k : A -> M B) (self self' : SGP30)
    (w w' : world) (e : exn) :
  m self w = (Raise e, self', w') ->
  Drv.bind m k self w = (Raise e, self', w').
Proof. intros Hm. unfold Drv.bind. rewrite Hm. reflexivity. Qed.

Lemma log_queried (addr reg : Z) (data : list Z) (secs : Q) (len : Z)
    (w : world) :
  log (queried addr reg data secs len w) =
  log w ++ [(now w, EvWriteBlock addr reg data); (now w, EvSleep secs);
            ((now w + secs)%Q, EvReadBlock addr REG_BASE len)].
Proof. unfold queried. log_shape. reflexivity. Qed.

(** What the three queries do when their reply arrives. *)
Lemma get_serial_id_run (self : SGP30) (w : world)
    (reply : list Z) (rest : list (list Z)) (v : Z) :
  acks w (address self) = true ->
  inbox w = reply :: rest ->
  serial_value reply = Ok v ->
  get_serial_id self w =
  (Ok (format_06X v), self,
   queried (address self) 0x36 [0x82] T_IDLE 9 w).
Proof.
  intros Hack Hin Hv. unfold get_serial_id.
  rewrite (query_reply _ _ _ _ _ _ _ _ _ _ Hack Hin).
  unfold Drv.bind, Drv.lift, Drv.ret. rewrite Hv. reflexivity.
Qed.

Lemma get_product_type_run (self : SGP30) (w : world)
    (b : Z) (tail : list Z) (rest : list (list Z)) :
  acks w (address self) = true ->
  inbox w = (b :: tail) :: rest ->
  get_product_type self w =
  (Ok (if Z.shiftr (Z.land b 0xF0) 4 =? 0 then Some "SGP30"%string else None),
   self,
   queried (address self) CMD_HEAD [CMD_GET_FEATURE_SET] (5 # 100) 3 w).
Proof.
  intros Hack Hin. unfold get_product_type.
  rewrite (query_reply _ _ _ _ _ _ _ _ _ _ Hack Hin).
  cbn [Exc.index nth_error]. unfold Drv.bind, Drv.lift.
  destruct (Z.shiftr (Z.land b 240) 4 =? 0); reflexivity.
Qed.

Lemma get_product_version_run (self : SGP30) (w : world)
    (b0 b : Z) (tail : list Z) (rest : list (list Z)) :
  acks w (address self) = true ->
  inbox w = (b0 :: b :: tail) :: rest ->
  get_product_version self w =
  (Ok (str_int (Z.shiftr (Z.land b 0xE0) 5) ++ "." ++
       str_int (Z.land b 0x1F))%string,
   self,
   queried (address self) CMD_HEAD [CMD_GET_FEATURE_SET] (5 # 100) 3 w).
Proof.
  intros Hack Hin. unfold get_product_version.
  rewrite (query_reply _ _ _ _ _ _ _ _ _ _ Hack Hin).
  reflexivity.
Qed.

(** X7. The three queries of [get_sensor_info].  When the sensor answers,
    the call consumes three replies in order: the serial number is taken
    from the first, the product type from the first byte of the second,
    the version from the second byte of the third; the feature set is
    asked for twice.  The maker is "Sensirion", the remaining replies are
    left in place, and the call has slept 1 ms + 50 ms + 50 ms. *)
Theorem get_sensor_info_three_replies (self : SGP30) (w : world)
    (r1 : list Z) (t0 : Z) (t_tail : list Z) (v0 v1 : Z) (v_tail : list Z)
    (rest : list (list Z)) (serial : Z) :
  acks w (address self) = true ->
  inbox w = r1 :: (t0 :: t_tail) :: (v0 :: v1 :: v_tail) :: rest ->
  serial_value r1 = Ok serial ->
  let run := get_sensor_info self w in
  result run =
  Ok (Models.mkSensorInfo "Sensirion"
        (if Z.shiftr (Z.land t0 0xF0) 4 =? 0 then Some "SGP30"%string else None)
        (Some (format_06X serial))
        (Some (str_int (Z.shiftr (Z.land v1 0xE0) 5) ++ "." ++
               str_int (Z.land v1 0x1F))%string)) /\
  inbox (world_after run) = rest /\
  now (world_after run) = (now w + T_IDLE + (5 # 100) + (5 # 100))%Q /\
  map snd (entries_since w (world_after run)) =
  [EvWriteBlock (address self) 0x36 [0x82]; EvSleep T_IDLE;
   EvReadBlock (address self) REG_BASE 9;
   EvWriteBlock (address self) CMD_HEAD [CMD_GET_FEATURE_SET];
   EvSleep (5 # 100); EvReadBlock (address self) REG_BASE 3;
   EvWriteBlock (address self) CMD_HEAD [CMD_GET_FEATURE_SET];
   EvSleep (5 # 100); EvReadBlock (address self) REG_BASE 3].
Proof.
  intros Hack Hin Hserial run. subst run.
  set (w1 := queried (address self) 0x36 [0x82] T_IDLE 9 w).
  set (w2 := queried (address self) CMD_HEAD [CMD_GET_FEATURE_SET] (5 # 100) 3 w1).
  set (w3 := queried (address self) CMD_HEAD [CMD_GET_FEATURE_SET] (5 # 100) 3 w2).
  assert (Hin1 : inbox w1 = (t0 :: t_tail) :: (v0 :: v1 :: v_tail) :: rest)
    by (subst w1; cbn; rewrite Hin; reflexivity).
  assert (Hin2 : inbox w2 = (v0 :: v1 :: v_tail) :: rest)
    by (subst w2; cbn [inbox queried pop_inbox record advance]; rewrite Hin1;
        reflexivity).
  assert (Hrun : get_sensor_info self w =
                 (Ok (Models.mkSensorInfo "Sensirion"
                        (if Z.shiftr (Z.land t0 0xF0) 4 =? 0
                         then Some "SGP30"%string else None)
                        (Some (format_06X serial))
                        (Some (str_int (Z.shiftr (Z.land v1 0xE0) 5) ++ "." ++
                               str_int (Z.land v1 0x1F))%string)),
                  self, w3)).
  { unfold get_sensor_info.
    rewrite (bind_ok _ _ _ _ _ _ _
               (get_serial_id_run self w r1 _ serial Hack Hin Hserial)).
    fold w1.
    rewrite (bind_ok _ _ _ _ _ _ _
               (get_product_type_run self w1 t0 t_tail _ Hack Hin1)).
    fold w2.
    rewrite (bind_ok _ _ _ _ _ _ _
               (get_product_version_run self w2 v0 v1 v_tail _ Hack Hin2)).
    reflexivity. }
  rewrite Hrun. unfold result, world_after. cbn [fst snd].
  split; [reflexivity |].
  split; [subst w3; cbn [inbox queried pop_inbox record advance];
          rewrite Hin2; reflexivity |].
  split; [reflexivity |].
  erewrite entries_since_app.
  2:{ subst w3 w2 w1. rewrite !log_queried, <- !app_assoc. reflexivity. }
  reflexivity.
Qed.

Lemma get_sensor_info_three_replies_witness :
  result (get_sensor_info Bench.sensor
            (Bench.bench 0 [Bench.serial_reply; Bench.feature_reply;
                            Bench.feature_reply; Bench.good_reply])) =
  Ok (Models.mkSensorInfo "Sensirion" (Some "SGP30"%string)
        (Some "1A2B3C4"%string) (Some "2.5"%string)) /\
  inbox (world_after
           (get_sensor_info Bench.sensor
              (Bench.bench 0 [Bench.serial_reply; Bench.feature_reply;
                              Bench.feature_reply; Bench.good_reply]))) =
  [Bench.good_reply].
Proof.
  destruct (get_sensor_info_three_replies Bench.sensor
              (Bench.bench 0 [Bench.serial_reply; Bench.feature_reply;
                              Bench.feature_reply; Bench.good_reply])
              Bench.serial_reply 0x00 [0x45; 0x00] 0x00 0x45 [0x00]
              [Bench.good_reply] 0x000001A2B3C4 eq_refl eq_refl eq_refl)
    as (Hres & Hinbox & _).
  split; [exact Hres | exact Hinbox].
Defined.

Lemma bind_ok_inv {A B} (m : M A) (k : A -> M B) (self self2 : SGP30)
    (w w2 : world) (b : B) :
  Drv.bind m k self w = (Ok b, self2, w2) ->
  exists a self1 w1,
    m self w = (Ok a, self1, w1) /\ k a self1 w1 = (Ok b, self2, w2).
Proof.
  unfold Drv.bind. destruct (m self w) as [[[a | e] self1] w1]; intros Hk.
  - exists a, self1, w1. split; [reflexivity | exact Hk].
  - discriminate Hk.
Qed.

(** A query that returns has been acknowledged and has consumed one
    reply, when its decoding touches neither the object nor the world. *)
Lemma query_ok_inv {A} (reg : Z) (data : list Z) (secs : Q) (len : Z)
    (decode : list Z -> M A) (self self' : SGP30) (w w' : world) (a : A) :
  (forall reply s x, exists r, decode reply s x = (r, s, x)) ->
  Drv.bind Drv.get_address (fun addr =>
    Drv.bind (Drv.write_i2c_block_data addr reg data) (fun _ =>
      Drv.bind (Drv.sleep secs) (fun _ =>
        Drv.bind (Drv.read_i2c_block_data addr REG_BASE len) decode)))
    self w = (Ok a, self', w') ->
  acks w (address self) = true /\ self' = self /\
  exists reply rest,
    inbox w = reply :: rest /\
    w' = queried (address self) reg data secs len w.
Proof.
  intros Hpure Hrun.
  destruct (acks w (address self)) eqn:Hack.
  - destruct (inbox w) as [| reply rest] eqn:Hin.
    + rewrite (query_silent _ _ _ _ _ _ _ _ Hack Hin) in Hrun.
      discriminate Hrun.
    + rewrite (query_reply _ _ _ _ _ _ _ _ _ _ Hack Hin) in Hrun.
      destruct (Hpure reply self (queried (address self) reg data secs len w))
        as [r Hr].
      rewrite Hr in Hrun. injection Hrun as _ <- <-.
      split; [reflexivity |]. split; [reflexivity |].
      exists reply, rest. split; reflexivity.
  - rewrite (query_nack _ _ _ _ _ _ _ _ Hack) in Hrun. discriminate Hrun.
Qed.

Lemma pure_lift_ret {A B} (r : outcome A) (f : A -> B) (s : SGP30) (x : world) :
  exists r', Drv.bind (Drv.lift r) (fun v => Drv.ret (f v)) s x = (r', s, x).
Proof.
  unfold Drv.bind, Drv.lift, Drv.ret. destruct r; eexists; reflexivity.
Qed.

(** X8. No sensor, no sleep.  When nothing acknowledges at the sensor's
    address, [get_sensor_info] raises [OSError] at its first write: the
    serial-ID command is the only call made, no time passes, no reply is
    consumed and the object is untouched. *)
Theorem get_sensor_info_nack (self : SGP30) (w : world) :
  acks w (address self) = false ->
  let run := get_sensor_info self w in
  result run = Raise OSError /\
  self_after run = self /\
  entries_since w (world_after run) =
  [(now w, EvWriteBlock (address self) 0x36 [0x82])] /\
  now (world_after run) = now w /\
  inbox (world_after run) = inbox w.
Proof.
  intros Hack run. subst run. unfold get_sensor_info.
  rewrite (bind_raise _ _ self self w
             (record (EvWriteBlock (address self) 0x36 [0x82]) w) OSError).
  - repeat split. apply entries_since_app. reflexivity.
  - unfold get_serial_id. apply (query_nack _ _ _ _ _ _ _ _ Hack).
Qed.

Lemma get_sensor_info_nack_witness :
  result (get_sensor_info {| tracker := 0; address := 0x59 |}
            (Bench.bench 0 [Bench.serial_reply])) = Raise OSError /\
  inbox (world_after (get_sensor_info {| tracker := 0; address := 0x59 |}
                        (Bench.bench 0 [Bench.serial_reply]))) =
  [Bench.serial_reply].
Proof.
  destruct (get_sensor_info_nack {| tracker := 0; address := 0x59 |}
              (Bench.bench 0 [Bench.serial_reply]) eq_refl)
    as (Hres & _ & _ & _ & Hinbox).
  split; [exact Hres | exact Hinbox].
Defined.

Lemma Ok_triple_inv {A} (a b : A) (s1 s2 : SGP30) (w1 w2 : world) :
  (Ok a, s1, w1) = (Ok b, s2, w2) -> a = b /\ s1 = s2 /\ w1 = w2.
Proof. intros H. injection H as -> -> ->. repeat split. Qed.

Lemma get_serial_id_ok_inv (self self' : SGP30) (w w' : world) (s : string) :
  get_serial_id self w = (Ok s, self', w') ->
  acks w (address self) = true /\ self' = self /\
  exists reply rest,
    inbox w = reply :: rest /\
    w' = queried (address self) 0x36 [0x82] T_IDLE 9 w.
Proof.
  unfold get_serial_id. apply query_ok_inv.
  intros reply s0 x. apply pure_lift_ret.
Qed.
Lemma get_product_type_ok_inv (self self' : SGP30) (w w' : world)
    (ty : option string) :
  get_product_type self w = (Ok ty, self', w') ->
  acks w (address self) = true /\ self' = self /\
  exists reply rest,
    inbox w = reply :: rest /\
    w' = queried (address self) CMD_HEAD [CMD_GET_FEATURE_SET] (5 # 100) 3 w.
Proof.
  unfold get_product_type. apply query_ok_inv.
  intros reply s x. unfold Drv.bind, Drv.lift, Drv.ret.
  destruct (Exc.index reply 0) as [d | e]; [| eexists; reflexivity].
  destruct (Z.shiftr (Z.land d 240) 4 =? 0); eexists; reflexivity.
Qed.
Lemma get_product_version_ok_inv (self self' : SGP30) (w w' : world)
    (ver : string) :
  get_product_version self w = (Ok ver, self', w') ->
  acks w (address self) = true /\ self' = self /\
  exists reply rest,
    inbox w = reply :: rest /\
    w' = queried (address self) CMD_HEAD [CMD_GET_FEATURE_SET] (5 # 100) 3 w.
Proof.
  unfold get_product_version. apply query_ok_inv.
  intros reply s x. apply pure_lift_ret.
Qed.

Lemma inbox_queried (addr reg : Z) (data : list Z) (secs : Q) (len : Z)
    (w : world) :
  inbox (queried addr reg data secs len w) = tl (inbox w).
Proof. reflexivity. Qed.

(** X9. A record is never made up.  Whenever [get_sensor_info] returns,
    the sensor has acknowledged and exactly three replies have been taken
    from the device; the record names "Sensirion" and carries a serial
    number and a version (only the model can be [None]); the object is
    unchanged. *)
Theorem get_sensor_info_ok_inv (self : SGP30) (w : world)
    (info : Models.SensorInfo) :
  let run := get_sensor_info self w in
  result run = Ok info ->
  acks w (address self) = true /\
  self_after run = self /\
  (exists r1 r2 r3, inbox w = r1 :: r2 :: r3 :: inbox (world_after run)) /\
  Models.maker info = "Sensirion"%string /\
  Models.serial info <> None /\
  Models.version info <> None.
Proof.
  intros run. subst run.
  destruct (get_sensor_info self w) as [[r self3] w3] eqn:Hrun.
  unfold result, self_after, world_after. cbn [fst snd]. intros ->.
  unfold get_sensor_info in Hrun.
  apply bind_ok_inv in Hrun.
  destruct Hrun as (serial & self1 & w1 & Hserial & Hrun).
  apply bind_ok_inv in Hrun.
  destruct Hrun as (ty & self2 & w2 & Htype & Hrun).
  apply bind_ok_inv in Hrun.
  destruct Hrun as (ver & self3' & w3' & Hver & Hret).
  apply Ok_triple_inv in Hret. destruct Hret as (<- & <- & <-).
  apply get_serial_id_ok_inv in Hserial.
  destruct Hserial as (Hack & -> & r1 & rest1 & Hin & ->).
  apply get_product_type_ok_inv in Htype.
  destruct Htype as (_ & -> & r2 & rest2 & Hin1 & ->).
  apply get_product_version_ok_inv in Hver.
  destruct Hver as (_ & -> & r3 & rest3 & Hin2 & ->).
  rewrite inbox_queried in Hin1, Hin2. rewrite inbox_queried in Hin2.
  rewrite !inbox_queried.
  rewrite Hin in *. cbn [tl] in *. subst rest1. cbn [tl] in *. subst rest2.
  cbn [tl].
  split; [exact Hack |]. split; [reflexivity |].
  split; [exists r1, r2, r3; reflexivity |].
  split; [reflexivity |]. split; discriminate.
Qed.

Lemma get_sensor_info_ok_inv_witness :
  exists r1 r2 r3,
    inbox (Bench.bench 0 [Bench.serial_reply; Bench.feature_reply;
                          Bench.feature_reply; Bench.good_reply]) =
    r1 :: r2 :: r3 ::
    inbox (world_after
             (get_sensor_info Bench.sensor
                (Bench.bench 0 [Bench.serial_reply; Bench.feature_reply;
                                Bench.feature_reply; Bench.good_reply]))).
Proof.
  apply (get_sensor_info_ok_inv Bench.sensor
           (Bench.bench 0 [Bench.serial_reply; Bench.feature_reply;
                           Bench.feature_reply; Bench.good_reply])
           (Models.mkSensorInfo "Sensirion" (Some "SGP30"%string)
              (Some "1A2B3C4"%string) (Some "2.5"%string))).
  reflexivity.
Defined.

(** ** Construction *)

(** X10. The four ways [SGP30(bus_no)] ends.  Without the bus file the
    constructor exits with status 1 before any bus traffic.  With the bus
    and a sensor that acknowledges the probe, it returns an object with
    timestamp 0 and address 0x58 after the "Init IAQ" command and 50 ms,
    the bus left open.  When the probe is not acknowledged the
    constructor calls [close]: if something acknowledges the reset byte at
    0x20 the bus is closed and the exit status is 1; otherwise the reset
    raises [OSError], which leaves the constructor instead of the exit,
    with the bus still open. *)
Theorem new_outcomes (bus_no : Z) (w : world) :
  let run := new bus_no w in
  let calls := map snd (entries_since w (snd run)) in
  if bus_present w bus_no then
    if acks w I2C_ADDRESS then
      fst run = Ok {| tracker := 0; address := I2C_ADDRESS |} /\
      opened (snd run) = true /\
      now (snd run) = (now w + (5 # 100))%Q /\
      calls = [EvOpen bus_no; EvReadByteData I2C_ADDRESS 0;
               EvWriteBlock I2C_ADDRESS CMD_HEAD [CMD_IAQ_INIT];
               EvSleep (5 # 100)]
    else if acks w CMD_HEAD then
      fst run = Raise (SystemExit 1) /\
      opened (snd run) = false /\
      calls = [EvOpen bus_no; EvReadByteData I2C_ADDRESS 0; EvPrintExc;
               EvPrint "Closing I2C bus";
               EvWriteByte CMD_HEAD CMD_SOFT_RESET; EvBusClose]
    else
      fst run = Raise OSError /\
      opened (snd run) = true /\
      calls = [EvOpen bus_no; EvReadByteData I2C_ADDRESS 0; EvPrintExc;
               EvPrint "Closing I2C bus";
               EvWriteByte CMD_HEAD CMD_SOFT_RESET]
  else
    fst run = Raise (SystemExit 1) /\
    opened (snd run) = opened w /\
    calls = [EvOpen bus_no; EvPrintExc].
Proof.
  intros run calls. subst run calls.
  unfold new, init_body, iaq_init, close, soft_reset, blank.
  destruct (bus_present w bus_no) eqn:Hbus;
    [destruct (acks w I2C_ADDRESS) eqn:Hsensor;
     [| destruct (acks w CMD_HEAD) eqn:Hhead] |];
    unfold Drv.try_except, Drv.SMBus; drv_run Hbus;
    rewrite ?Hsensor; drv_run Hsensor; rewrite ?Hhead; drv_run Hhead;
    repeat (split; [reflexivity |]);
    (erewrite entries_since_app; [| log_shape; reflexivity]);
    reflexivity.
Qed.

(** ** One measurement after another *)

Lemma now_issued (self : SGP30) (w : world) :
  now (issued self w) =
  if Qltb (now w - tracker self) 1 then (now w + 1)%Q else now w.
Proof.
  unfold issued. destruct (Qltb (now w - tracker self) 1); reflexivity.
Qed.

Lemma inbox_asked (self : SGP30) (w : world) :
  inbox (asked self w) = inbox w.
Proof.
  unfold asked, issued. destruct (Qltb (now w - tracker self) 1); reflexivity.
Qed.

(** Every call puts exactly one "Measure IAQ" command on the wire, at
    the instant its first stage ends. *)
Lemma get_measurement_issues_once (as_dict : bool) (temp humi : Q)
    (self : SGP30) (w : world) :
  last_issued
    (entries_since w (world_after (get_measurement as_dict temp humi self w)))
  = Some (now (issued self w)).
Proof.
  assert (Hcmd : is_measure_command
                   (EvWriteBlock (address self) CMD_HEAD [CMD_MEASURE_IAQ])
                 = true) by reflexivity.
  destruct (acks w (address self)) eqn:Hack.
  - destruct (inbox w) as [| reply rest] eqn:Hin.
    + rewrite (get_measurement_silent _ _ _ _ _ Hack Hin).
      unfold world_after. cbn [snd].
      erewrite entries_since_app;
        [| rewrite log_asked, log_issued, <- app_assoc; reflexivity].
      rewrite now_issued.
      destruct (Qltb (now w - tracker self) 1); reflexivity.
    + rewrite (get_measurement_reply _ _ _ _ _ _ _ Hack Hin).
      unfold world_after. cbn [snd].
      erewrite entries_since_app;
        [| change (log (record EvTime (pop_inbox (asked self w))))
             with (log (asked self w) ++ [(now (asked self w), EvTime)]);
           rewrite log_asked, log_issued, <- !app_assoc; reflexivity].
      rewrite now_issued.
      destruct (Qltb (now w - tracker self) 1); reflexivity.
  - rewrite (get_measurement_nack _ _ _ _ _ Hack).
    unfold world_after. cbn [snd].
    erewrite entries_since_app; [| rewrite log_issued; reflexivity].
    rewrite now_issued.
    destruct (Qltb (now w - tracker self) 1); reflexivity.
Qed.

(** X11. Two seconds between commands.  After a call of
    [get_measurement] that got its reply, let the caller idle for any
    time and call again: the second "Measure IAQ" command goes out at
    least two seconds after the first, whether or not the second call
    gets a reply. *)
Theorem measure_commands_two_seconds_apart (as_dict as_dict' : bool)
    (temp humi temp' humi' : Q) (self : SGP30) (w : world)
    (reply : list Z) (rest : list (list Z)) (idle : Q) :
  acks w (address self) = true ->
  inbox w = reply :: rest ->
  (0 <= idle)%Q ->
  let first := get_measurement as_dict temp humi self w in
  let between := advance idle (world_after first) in
  let second := get_measurement as_dict' temp' humi' (self_after first) between in
  exists t1 t2,
    last_issued (entries_since w (world_after first)) = Some t1 /\
    last_issued (entries_since between (world_after second)) = Some t2 /\
    (2 <= t2 - t1)%Q.
Proof.
  intros Hack Hin Hidle first between second.
  exists (now (issued self w)), (now (issued (self_after first) between)).
  split; [apply get_measurement_issues_once |].
  split; [apply get_measurement_issues_once |].
  rewrite (now_issued (self_after first) between).
  subst between first.
  rewrite (get_measurement_reply _ _ _ _ _ _ _ Hack Hin).
  unfold self_after, world_after. cbn [fst snd tracker].
  change (now (advance idle (record EvTime (pop_inbox (asked self w)))))
    with (now (asked self w) + idle)%Q.
  rewrite now_asked.
  set (t1 := now (issued self w)).
  destruct (Qltb (t1 + 1 + idle - (t1 + 1)) 1) eqn:Hlt.
  - lra.
  - apply Qltb_nlt in Hlt. lra.
Qed.

Lemma measure_commands_two_seconds_apart_witness :
  exists t1 t2,
    last_issued
      (entries_since (Bench.bench 100 [Bench.good_reply; Bench.good_reply])
         (world_after Bench.first_call)) = Some t1 /\
    last_issued
      (entries_since (advance (1 # 2) (world_after Bench.first_call))
         (world_after Bench.second_call)) = Some t2 /\
    (2 <= t2 - t1)%Q.
Proof.
  apply (measure_commands_two_seconds_apart false false 0 0 0 0 Bench.sensor
           (Bench.bench 100 [Bench.good_reply; Bench.good_reply])
           Bench.good_reply [Bench.good_reply] (1 # 2) eq_refl eq_refl).
  vm_compute. discriminate.
Defined.

(** X12. What a call that reads a reply leaves behind.  It takes exactly
    one reply from the device, returns one second after its command (two
    seconds after its start when it slept first), and the timestamp it
    stores is the clock at its return.  This holds even when the reply is
    too short to decode: with fewer than five bytes the call raises
    [IndexError] after these changes; with five or more it returns. *)
Theorem get_measurement_leaves (as_dict : bool) (temp humi : Q)
    (self : SGP30) (w : world) (reply : list Z) (rest : list (list Z)) :
  acks w (address self) = true ->
  inbox w = reply :: rest ->
  let run := get_measurement as_dict temp humi self w in
  inbox (world_after run) = rest /\
  tracker (self_after run) = now (world_after run) /\
  now (world_after run) =
  ((if Qltb (now w - tracker self) 1 then now w + 1 else now w) + 1)%Q /\
  ((List.length reply < 5)%nat -> result run = Raise IndexError) /\
  ((5 <= List.length reply)%nat -> is_ok (result run) = true).
Proof.
  intros Hack Hin run. subst run.
  rewrite (get_measurement_reply _ _ _ _ _ _ _ Hack Hin).
  unfold result, self_after, world_after. cbn [fst snd tracker].
  split.
  { change (inbox (record EvTime (pop_inbox (asked self w))))
      with (tl (inbox (asked self w))).
    rewrite inbox_asked, Hin. reflexivity. }
  split; [reflexivity |].
  split.
  - change (now (record EvTime (pop_inbox (asked self w))))
      with (now (asked self w)).
    rewrite now_asked, now_issued. reflexivity.
  - split; intros Hlen.
    + destruct reply as [| b0 [| b1 [| b2 [| b3 [| b4 tail]]]]];
        cbn [List.length] in Hlen; try lia; reflexivity.
    + destruct reply as [| b0 [| b1 [| b2 [| b3 [| b4 tail]]]]];
        cbn [List.length] in Hlen; try lia.
      destruct as_dict; reflexivity.
Qed.

Lemma get_measurement_leaves_witness :
  (inbox (world_after Bench.first_call) = [Bench.good_reply] /\
   is_ok (result Bench.first_call) = true) /\
  result (get_measurement false 0 0 Bench.sensor
            (Bench.bench 100 [[0x01; 0xF4; 0x33; 0x00]])) = Raise IndexError.
Proof.
  split.
  - destruct (get_measurement_leaves false 0 0 Bench.sensor
                (Bench.bench 100 [Bench.good_reply; Bench.good_reply])
                Bench.good_reply [Bench.good_reply] eq_refl eq_refl)
      as (Hinbox & _ & _ & _ & Hok).
    split; [exact Hinbox | apply Hok; cbn; lia].
  - apply (get_measurement_leaves false 0 0 Bench.sensor
             (Bench.bench 100 [[0x01; 0xF4; 0x33; 0x00]])
             [0x01; 0xF4; 0x33; 0x00] [] eq_refl eq_refl).
    cbn. lia.
Defined.

(** X13. Sixteen-bit readings.  From a reply of six bytes the CO2 and
    TVOC values are [b0*256 + b1] and [b3*256 + b4]: each lies between 0
    and 65535, and dividing it by 256 gives its two bytes back. *)
Theorem get_measurement_word_range (as_dict : bool) (temp humi : Q)
    (self : SGP30) (w : world) (b0 b1 b2 b3 b4 b5 : Z)
    (rest : list (list Z)) :
  acks w (address self) = true ->
  inbox w = [b0; b1; b2; b3; b4; b5] :: rest ->
  is_byte b0 -> is_byte b1 -> is_byte b3 -> is_byte b4 ->
  exists co2 tvoc,
    result (get_measurement as_dict temp humi self w) =
    Ok (reading as_dict co2 tvoc) /\
    0 <= co2 <= 65535 /\ co2 / 256 = b0 /\ co2 mod 256 = b1 /\
    0 <= tvoc <= 65535 /\ tvoc / 256 = b3 /\ tvoc mod 256 = b4.
Proof.
  intros Hack Hin H0 H1 H3 H4.
  exists (b0 * 256 + b1), (b3 * 256 + b4).
  rewrite (get_measurement_reply _ _ _ _ _ _ _ Hack Hin).
  unfold result. cbn [fst]. rewrite measurement_of_six.
  rewrite (word_sum b0 b1 H1), (word_sum b3 b4 H4).
  unfold is_byte in *.
  split; [reflexivity |].
  rewrite !Z.div_add_l, !Z.div_small by lia.
  rewrite !(Z.add_comm (_ * 256)), !Z.mod_add, !Z.mod_small by lia.
  lia.
Qed.

Lemma get_measurement_word_range_witness :
  exists co2 tvoc,
    result (get_measurement false 0 0 Bench.sensor
              (Bench.bench 100 [Bench.good_reply])) =
    Ok (reading false co2 tvoc) /\
    0 <= co2 <= 65535 /\ co2 / 256 = 0x01 /\ co2 mod 256 = 0xF4 /\
    0 <= tvoc <= 65535 /\ tvoc / 256 = 0x00 /\ tvoc mod 256 = 0x64.
Proof.
  apply (get_measurement_word_range false 0 0 Bench.sensor
           (Bench.bench 100 [Bench.good_reply])
           0x01 0xF4 0x33 0x00 0x64 0xFE [] eq_refl eq_refl);
    unfold is_byte; lia.
Defined.

(** ** Humidity compensation *)

Lemma digit_cases (d : Z) (P : Z -> Prop) :
  0 <= d < 16 ->
  P 0 -> P 1 -> P 2 -> P 3 -> P 4 -> P 5 -> P 6 -> P 7 ->
  P 8 -> P 9 -> P 10 -> P 11 -> P 12 -> P 13 -> P 14 -> P 15 -> P d.
Proof.
  intros Hd.
  assert (Hin : In d (map Z.of_nat (seq 0 16))).
  { rewrite <- (Z2Nat.id d) by lia. apply in_map, in_seq. lia. }
  cbn in Hin. intros.
  repeat (destruct Hin as [<- | Hin]; [assumption |]).
  contradiction.
Qed.

(** [int(s, 16)] on two lower-case digits. *)
Lemma int16_two_digits (a b : Z) :
  0 <= a < 16 -> 0 <= b < 16 ->
  int16 (String (lower_hex (hex_digit a))
           (String (lower_hex (hex_digit b)) EmptyString)) = Some (16 * a + b).
Proof.
  intros Ha Hb.
  pattern b. apply (digit_cases b _ Hb);
    pattern a; apply (digit_cases a _ Ha); reflexivity.
Qed.

(** The four characters of ["{:04x}"] for a 16-bit number. *)
Lemma format_04x_digits (n : Z) :
  0 <= n < 65536 ->
  format_04x n =
  String (lower_hex (hex_digit (n / 4096)))
    (String (lower_hex (hex_digit (n / 256 mod 16)))
       (String (lower_hex (hex_digit (n / 16 mod 16)))
          (String (lower_hex (hex_digit (n mod 16))) EmptyString))).
Proof.
  intros Hn. unfold format_04x.
  destruct (Z.ltb_spec n 0) as [Hneg | _]; [lia |].
  unfold hex_lower. rewrite (hex_upper_with_fuel 3 n) by (cbn; lia).
  cbn [hex_loop].
  assert (H1 : n / 16 / 16 = n / 256) by (rewrite Z.div_div by lia; reflexivity).
  assert (H2 : n / 256 / 16 = n / 4096) by (rewrite Z.div_div by lia; reflexivity).
  rewrite H1, H2.
  destruct (Z.eqb_spec (n / 16) 0) as [Hz1 | Hnz1].
  { replace (n / 4096) with 0 by (Z.div_mod_to_equations; lia).
    replace (n / 256 mod 16) with 0 by (Z.div_mod_to_equations; lia).
    replace (n / 16 mod 16) with 0 by (Z.div_mod_to_equations; lia).
    reflexivity. }
  destruct (Z.eqb_spec (n / 256) 0) as [Hz2 | Hnz2].
  { replace (n / 4096) with 0 by (Z.div_mod_to_equations; lia).
    replace (n / 256 mod 16) with 0 by (Z.div_mod_to_equations; lia).
    reflexivity. }
  destruct (Z.eqb_spec (n / 4096) 0) as [Hz3 | Hnz3].
  { rewrite Hz3. reflexivity. }
  replace (n / 4096 mod 16) with (n / 4096) by (Z.div_mod_to_equations; lia).
  destruct (n / 4096 / 16 =? 0); reflexivity.
Qed.

(** X14. The two bytes of the humidity word.  For a fixed-point value
    [n] that fits sixteen bits, printing it with ["{:04x}"], cutting the
    string after its second character and parsing the halves gives the
    high byte [n / 256] and the low byte [n mod 256]: two bytes that
    recombine to [n]. *)
Theorem abs_humidity_bytes_split (n : Z) :
  0 <= n < 65536 ->
  abs_humidity_bytes n = Some [n / 256; n mod 256] /\
  is_byte (n / 256) /\ is_byte (n mod 256) /\
  (n / 256) * 256 + n mod 256 = n.
Proof.
  intros Hn. split.
  - unfold abs_humidity_bytes. rewrite (format_04x_digits n Hn).
    cbn [substring String.length Nat.sub].
    rewrite !int16_two_digits by (Z.div_mod_to_equations; lia).
    do 2 f_equal; [| f_equal]; Z.div_mod_to_equations; lia.
  - unfold is_byte. Z.div_mod_to_equations. lia.
Qed.

Lemma abs_humidity_bytes_split_witness :
  abs_humidity_bytes 0x0B7A = Some [0x0B7A / 256; 0x0B7A mod 256].
Proof.
  apply (abs_humidity_bytes_split 0x0B7A). lia.
Defined.

(** X15. The humidity frame.  When [calculate_abs_humidity] gives two
    elements [h] and [l] and the sensor acknowledges,
    [set_abs_humidity_compensation] writes the single frame
    [0x61, h, l, crc] under the header 0x20, where [crc] is the checksum
    that [crc_check] accepts for [h, l], then sleeps 50 ms; the object is
    untouched and no reply is consumed.  When fewer than two elements
    come back, the checksum raises [IndexError] before anything reaches
    the bus. *)
Theorem set_abs_humidity_compensation_frame
    (calc : Q -> Q -> list Z) (temp humi : Q) (self : SGP30) (w : world) :
  let run := set_abs_humidity_compensation calc temp humi self w in
  (forall h l,
     calc temp humi = [h; l] ->
     acks w (address self) = true ->
     exists crc,
       crc_check [h; l] crc = Ok true /\
       result run = Ok tt /\
       self_after run = self /\
       inbox (world_after run) = inbox w /\
       entries_since w (world_after run) =
       [(now w, EvWriteBlock (address self) CMD_HEAD [CMD_SET_ABS_HUMI; h; l; crc]);
        (now w, EvSleep (5 # 100))]) /\
  ((List.length (calc temp humi) < 2)%nat ->
   result run = Raise IndexError /\
   entries_since w (world_after run) = []).
Proof.
  intros run. subst run. unfold set_abs_humidity_compensation. split.
  - intros h l Hcalc Hack. rewrite Hcalc.
    exists (Z.land (Nat.iter 8 crc_bit
                      (Z.lxor (Nat.iter 8 crc_bit (Z.lxor 0xFF h)) l)) 0xFF).
    split; [apply crc_check_of_calc, crc_calc_two |].
    rewrite (crc_calc_two h l []).
    drv_run Hack.
    repeat (split; [reflexivity |]).
    apply entries_since_app. log_shape. reflexivity.
  - intros Hshort. rewrite (crc_calc_short _ Hshort).
    split; [reflexivity |].
    apply entries_since_app. cbn. symmetry. apply app_nil_r.
Qed.

Lemma set_abs_humidity_compensation_frame_witness :
  (exists crc,
     crc_check [0x0B; 0x7A] crc = Ok true /\
     entries_since (Bench.bench 0 [])
       (world_after
          (set_abs_humidity_compensation (fun _ _ => [0x0B; 0x7A]) 25 50
             Bench.sensor (Bench.bench 0 []))) =
     [(0%Q, EvWriteBlock I2C_ADDRESS CMD_HEAD [CMD_SET_ABS_HUMI; 0x0B; 0x7A; crc]);
      (0%Q, EvSleep (5 # 100))]) /\
  result (set_abs_humidity_compensation (fun _ _ => [0x0B]) 25 50
            Bench.sensor (Bench.bench 0 [])) = Raise IndexError.
Proof.
  split.
  - destruct (proj1 (set_abs_humidity_compensation_frame
                       (fun _ _ => [0x0B; 0x7A]) 25 50
                       Bench.sensor (Bench.bench 0 []))
                0x0B 0x7A eq_refl eq_refl)
      as (crc & Hcheck & _ & _ & _ & Hlog).
    exists crc. split; [exact Hcheck | exact Hlog].
  - apply (proj2 (set_abs_humidity_compensation_frame
                    (fun _ _ => [0x0B]) 25 50
                    Bench.sensor (Bench.bench 0 []))).
    cbn. lia.
Defined.
